(** * Postal data analysis: the cleaning pipeline of [deepseek.py]

    A shallow embedding of the script's four stages (load and clean,
    summarise, visualise, export) and of the part of pandas they rely on.

    Modelling conventions.
    - A string is a sequence of code points below 256; [isspace] and
      [lower_char] follow Python's [str.isspace] and [str.lower] on that
      range.
    - A cell is a string, a number (integer valued) or the missing value
      that [read_excel] produces for an empty cell.
    - A table is its list of column labels and its list of rows; header
      cells are text, so labels are strings, and a sheet without a header
      has no label.  The row index is not modelled: the export is written
      with [index=False].
    - The file system is a finite map from paths to files, the console a
      list of printed lines, and the objects held by Python variables live
      in a heap of tables addressed by location.
    - Drawing a chart is matplotlib's business and writing a workbook
      the spreadsheet writer's: the renderer and the writer are
      parameters that may refuse a figure or a table with an
      exception. *)

From Stdlib Require Import Ascii String ZArith NArith.
From stdpp Require Import base decidable option list strings gmap sorting.

Open Scope string_scope.

(** ** Python strings *)

Module PyStr.

(** [str.isspace] on one character: TAB..CR, FS..US, space, NEL, NBSP. *)
Definition isspace (c : ascii) : bool :=
  let n := N_of_ascii c in
  ((9 <=? n) && (n <=? 13) || (28 <=? n) && (n <=? 32)
   || (n =? 133) || (n =? 160))%N.

(** Characters changed by [str.lower]: A..Z and the accented capitals
    U+00C0..U+00DE, the multiplication sign U+00D7 excepted. *)
Definition isupper (c : ascii) : bool :=
  let n := N_of_ascii c in
  ((65 <=? n) && (n <=? 90)
   || (192 <=? n) && (n <=? 222) && negb (n =? 215))%N.

Definition lower_char (c : ascii) : ascii :=
  if isupper c then ascii_of_N (N_of_ascii c + 32) else c.

Fixpoint lower (s : string) : string :=
  match s with
  | EmptyString => EmptyString
  | String c s' => String (lower_char c) (lower s')
  end.

Fixpoint lstrip (s : string) : string :=
  match s with
  | EmptyString => EmptyString
  | String c s' => if isspace c then lstrip s' else s
  end.

Fixpoint rstrip (s : string) : string :=
  match s with
  | EmptyString => EmptyString
  | String c s' =>
      match rstrip s' with
      | EmptyString => if isspace c then EmptyString else String c EmptyString
      | r => String c r
      end
  end.

(** [str.strip()] with no argument: whitespace removed at both ends. *)
Definition strip (s : string) : string := rstrip (lstrip s).

(** The first and the last character of a string. *)
Definition first_char (s : string) : option ascii :=
  match s with EmptyString => None | String c _ => Some c end.

Fixpoint last_char (s : string) : option ascii :=
  match s with
  | EmptyString => None
  | String c EmptyString => Some c
  | String _ s' => last_char s'
  end.

Definition no_leading_space (s : string) : Prop :=
  forall c, first_char s = Some c -> isspace c = false.

Definition no_trailing_space (s : string) : Prop :=
  forall c, last_char s = Some c -> isspace c = false.

Fixpoint chars (s : string) : list ascii :=
  match s with
  | EmptyString => []
  | String c s' => c :: chars s'
  end.

(** A string is lowercase when no character of it is an uppercase one. *)
Definition is_lowercase (s : string) : Prop :=
  Forall (fun c => isupper c = false) (chars s).

End PyStr.

(** ** Tables *)

Inductive cell :=
  | Str (s : string)
  | Num (z : Z)
  | NaN.

Global Instance cell_eq_dec : EqDecision cell.
Proof. solve_decision. Defined.

Record DataFrame := mkFrame {
  columns : list string;
  rows : list (list cell)
}.

Global Instance DataFrame_eq_dec : EqDecision DataFrame.
Proof. solve_decision. Defined.

(** ** The part of pandas the script uses

    As in pandas 1.1 to 2.x, where [DataFrame.applymap] exists and
    [value_counts] on a frame goes through [groupby]. *)

Module Pandas.

(** First occurrences, in order of appearance: what the hash-table walk of
    [drop_duplicates] (with [keep='first']) and of [unique] retains. *)
Fixpoint first_seen {A} `{EqDecision A} (seen l : list A) : list A :=
  match l with
  | [] => []
  | x :: l' =>
      if decide (x ∈ seen) then first_seen seen l'
      else x :: first_seen (x :: seen) l'
  end.

Definition first_occurrences {A} `{EqDecision A} (l : list A) : list A :=
  first_seen [] l.

Definition count {A} `{EqDecision A} (x : A) (l : list A) : nat :=
  length (filter (λ y, y = x) l).

(** [df.copy()] *)
Definition copy (df : DataFrame) : DataFrame :=
  mkFrame (columns df) (rows df).

(** [df.dropna()]: a row survives when none of its cells is missing. *)
Definition dropna (df : DataFrame) : DataFrame :=
  mkFrame (columns df) (filter (λ r, NaN ∉ r) (rows df)).

(** [df.drop_duplicates()]: the first of each group of equal rows. *)
Definition drop_duplicates (df : DataFrame) : DataFrame :=
  mkFrame (columns df) (first_occurrences (rows df)).

(** [df.columns.str.strip().str.lower()] *)
Definition str_strip (labels : list string) : list string :=
  PyStr.strip <$> labels.

Definition str_lower (labels : list string) : list string :=
  PyStr.lower <$> labels.

(** [df.columns = labels] *)
Definition set_columns (df : DataFrame) (labels : list string) : DataFrame :=
  mkFrame labels (rows df).

(** [df.applymap(f)] *)
Definition applymap (f : cell → cell) (df : DataFrame) : DataFrame :=
  mkFrame (columns df) ((λ r : list cell, f <$> r) <$> rows df).

(** [len(df)] *)
Definition len (df : DataFrame) : nat := length (rows df).

(** [df[name]]: a series when the label names one column, a frame when it
    names several, [KeyError] when it names none. *)
Inductive selection :=
  | Series (values : list cell)
  | Frame (cols : list (list cell))
  | Missing.

Definition positions (name : string) (labels : list string) : list nat :=
  filter (λ i, labels !! i = Some name) (seq 0 (length labels)).

Definition column_at (df : DataFrame) (i : nat) : list cell :=
  (λ r, default NaN (r !! i)) <$> rows df.

Definition getitem (df : DataFrame) (name : string) : selection :=
  match positions name (columns df) with
  | [] => Missing
  | [i] => Series (column_at df i)
  | ps => Frame (column_at df <$> ps)
  end.

(** [Series.unique()], [Series.nunique()] and [Series.value_counts()];
    the last two leave missing values out. *)
Definition unique (s : list cell) : list cell := first_occurrences s.

Definition notna (s : list cell) : list cell := filter (λ c, c ≠ NaN) s.

Definition nunique (s : list cell) : nat := length (first_occurrences (notna s)).

(** [value_counts] lists the values by decreasing count, and values with
    the same count in the order of their first appearance: each value is
    placed, from the last to the first, in front of the first entry that
    does not occur more often. *)
Definition more_frequent (a b : cell * nat) : Prop := (snd b ≤ snd a)%nat.

Global Instance more_frequent_dec a b : Decision (more_frequent a b).
Proof. unfold more_frequent. apply _. Defined.

Fixpoint insert_by_count (x : cell * nat) (l : list (cell * nat))
  : list (cell * nat) :=
  match l with
  | [] => [x]
  | y :: l' =>
      if decide (more_frequent x y) then x :: l else y :: insert_by_count x l'
  end.

Definition sort_by_count (l : list (cell * nat)) : list (cell * nat) :=
  foldr insert_by_count [] l.

Definition value_counts (s : list cell) : list (cell * nat) :=
  sort_by_count ((λ v, (v, count v s)) <$> first_occurrences (notna s)).

(** [Series.head(n)] *)
Definition head {A} (n : nat) (l : list A) : list A := take n l.

End Pandas.

(** ** Exceptions, the machine state and the run monad *)

Inductive exn_class :=
  | FileNotFoundError
  | ValueError
  | AttributeError
  | KeyError
  | OtherError
  | KeyboardInterrupt
  | SystemExit.

(** An exception object: its class and the argument it was built with. *)
Record exn := Raised { kind : exn_class; detail : string }.

(** [isinstance(e, Exception)]: everything but the two exits that derive
    from [BaseException] directly. *)
Definition is_Exception (e : exn) : bool :=
  match kind e with
  | KeyboardInterrupt | SystemExit => false
  | _ => true
  end.

(** What a figure shows once drawn: the aggregate it was plotted from. *)
Inductive chart :=
  | BarH (data : list (cell * nat))
  | Bar (data : list (cell * nat))
  | StackedBar (index cols : list cell) (heights : list (list nat))
  | BarLabelled (data : list (cell * nat)) (labels : list nat)
  | Heatmap (data : list (cell * nat)).

Inductive file :=
  | Workbook (t : DataFrame)
  | Picture (c : chart)
  | Other (complaint : string).

(** One argument of a [print] call: a string, an integer, the series of
    per-column counts that [nunique] gives on a frame, an array of
    values, or the f-string made of a prefix and [str(e)]. *)
Inductive item :=
  | Text (s : string)
  | Int (n : nat)
  | Counts (per_column : list (string * nat))
  | Values (vs : list cell)
  | Fmt (prefix : string) (e : exn).

Record state := mkState {
  heap : gmap nat DataFrame;
  files : gmap string file;
  console : list (list item)
}.

Inductive outcome (A : Type) :=
  | Ok (a : A)
  | Raise (e : exn).
Arguments Ok {A} a.
Arguments Raise {A} e.

Definition run (A : Type) : Type := state → outcome A * state.

Global Instance run_ret : MRet run := λ A a s, (Ok a, s).

Global Instance run_bind : MBind run := λ A B k m s,
  match m s with
  | (Ok a, s') => k a s'
  | (Raise e, s') => (Raise e, s')
  end.

Definition raise {A} (e : exn) : run A := λ s, (Raise e, s).

(** [try: body except Exception as e: handler(e)] *)
Definition try_except {A} (body : run A) (handler : exn → run A) : run A :=
  λ s, match body s with
       | (Ok a, s') => (Ok a, s')
       | (Raise e, s') =>
           if is_Exception e then handler e s' else (Raise e, s')
       end.

Definition print (line : list item) : run unit :=
  λ s, (Ok (), mkState (heap s) (files s) (console s ++ [line])).

Definition write_file (name : string) (f : file) : run unit :=
  λ s, (Ok (), mkState (heap s) (<[name := f]> (files s)) (console s)).

(** A new object on the heap, at the first free location. *)
Definition alloc (t : DataFrame) : run nat :=
  λ s, let r := fresh (dom (heap s)) in
       (Ok r, mkState (<[r := t]> (heap s)) (files s) (console s)).

(** The table a reference points to; references handed out by [alloc]
    never dangle, and the error branch only makes the function total. *)
Definition deref (r : nat) : run DataFrame :=
  λ s, match heap s !! r with
       | Some t => (Ok t, s)
       | None => (Raise (Raised OtherError "dangling reference"), s)
       end.

(** A machine that has just started: nothing allocated, nothing printed. *)
Definition boot (fs : gmap string file) : state := mkState ∅ fs [].

Module IO.

(** [pd.read_excel(path)] *)
Definition read_excel (path : string) : run DataFrame :=
  λ s, match files s !! path with
       | None => (Raise (Raised FileNotFoundError path), s)
       | Some (Workbook t) => (Ok t, s)
       | Some (Picture _) =>
           (Raise (Raised ValueError
              "Excel file format cannot be determined, you must specify an engine manually."), s)
       | Some (Other complaint) => (Raise (Raised ValueError complaint), s)
       end.

End IO.

(** ** The script *)

Import Pandas IO.

Definition nl : string := String "010"%char EmptyString.

(** The [lambda] handed to [applymap]:
    [x.strip() if isinstance(x, str) else x]. *)
Definition strip_if_str (x : cell) : cell :=
  match x with
  | Str s => Str (PyStr.strip s)
  | _ => x
  end.

Definition required_columns : list string :=
  ["statename"; "district"; "officetype"; "regionname"; "delivery"].

Definition missing_column (col : string) : exn :=
  Raised ValueError ("Required column '" ++ col ++ "' not found in dataset").

(** The [for col in required_columns] loop: the first absent name raises. *)
Fixpoint verify_columns (required labels : list string) : run unit :=
  match required with
  | [] => mret ()
  | col :: rest =>
      if decide (col ∈ labels) then verify_columns rest labels
      else raise (missing_column col)
  end.

(** The [.str] accessor of an index: it is there when the index holds
    text, and raises [AttributeError] on an index without labels, which
    is what a sheet without a header gives.  The message is pandas'; what
    follows relies on the class of the exception only. *)
Definition accessor_error : exn :=
  Raised AttributeError "Can only use .str accessor with string values!".

Definition str_accessor (labels : list string) : run (list string) :=
  match labels with
  | [] => raise accessor_error
  | _ => mret labels
  end.

Definition load_and_clean_data (file_path : string) : run (option nat) :=
  try_except
    (df ← read_excel file_path;
     let df_cleaned := copy df in
     let df_cleaned := dropna df_cleaned in
     let df_cleaned := drop_duplicates df_cleaned in
     labels ← str_accessor (columns df_cleaned);
     labels ← str_accessor (str_strip labels);
     let df_cleaned := set_columns df_cleaned (str_lower labels) in
     let df_cleaned := applymap strip_if_str df_cleaned in
     verify_columns required_columns (columns df_cleaned);;
     r ← alloc df_cleaned;
     mret (Some r))
    (λ e,
     print [Fmt "Error loading or cleaning data: " e];;
     mret None).

(** [df[name].nunique()], [df[name].unique()] and
    [df[name].value_counts()], on whatever [df[name]] selects. *)
Definition column_nunique (t : DataFrame) (name : string) : run item :=
  match getitem t name with
  | Series s => mret (Int (nunique s))
  | Frame cols => mret (Counts ((λ c, (name, nunique c)) <$> cols))
  | Missing => raise (Raised KeyError name)
  end.

Definition column_unique (t : DataFrame) (name : string) : run item :=
  match getitem t name with
  | Series s => mret (Values (unique s))
  | Frame _ =>
      raise (Raised AttributeError "'DataFrame' object has no attribute 'unique'")
  | Missing => raise (Raised KeyError name)
  end.

Definition not_one_dimensional (name : string) : exn :=
  Raised ValueError ("Grouper for '" ++ name ++ "' not 1-dimensional").

Definition grouping_key (t : DataFrame) (name : string) : run (list cell) :=
  match getitem t name with
  | Series s => mret s
  | Frame _ => raise (not_one_dimensional name)
  | Missing => raise (Raised KeyError name)
  end.

Definition column_value_counts (t : DataFrame) (name : string)
  : run (list (cell * nat)) :=
  s ← grouping_key t name; mret (value_counts s).

Definition generate_summary_stats (df : nat) : run unit :=
  t ← deref df;
  print [Text (nl ++ "=== BASIC SUMMARY ===")];;
  print [Text "Total Entries After Cleaning:"; Int (len t)];;
  states ← column_nunique t "statename";
  print [Text "Unique States:"; states];;
  districts ← column_nunique t "district";
  print [Text "Unique Districts:"; districts];;
  types ← column_unique t "officetype";
  print [Text "Unique Office Types:"; types].

(** The order in which a sorted grouping lists its keys: numbers before
    strings, numbers by value, strings by code point. *)
Definition cell_le (a b : cell) : Prop :=
  match a, b with
  | Num x, Num y => (x ≤ y)%Z
  | Num _, _ => True
  | Str _, Num _ => False
  | Str x, Str y => String.leb x y = true
  | Str _, NaN => True
  | NaN, NaN => True
  | NaN, _ => False
  end.

Global Instance cell_le_dec a b : Decision (cell_le a b).
Proof. destruct a, b; simpl; apply _. Defined.

(** [df.groupby(['statename', 'delivery']).size().unstack().fillna(0)] *)
Definition delivery_counts (states deliveries : list cell) : chart :=
  let pairs :=
    filter (λ p : cell * cell, p.1 ≠ NaN ∧ p.2 ≠ NaN) (zip states deliveries) in
  let index := merge_sort cell_le (first_occurrences (fst <$> pairs)) in
  let cols := merge_sort cell_le (first_occurrences (snd <$> pairs)) in
  StackedBar index cols
    ((λ s, (λ d, count (s, d) pairs) <$> cols) <$> index).

Section Script.
(** The renderer: [render name c] is the exception matplotlib raises
    while drawing [c] or saving it under [name], if any. *)
Variable render : string → chart → option exn.

(** Plot, decorate, [plt.savefig(name)], [plt.close()]. *)
Definition savefig (name : string) (c : chart) : run unit :=
  match render name c with
  | Some e => raise e
  | None => write_file name (Picture c)
  end.

(** The five blocks of [create_visualizations], one per figure. *)

(* Visualization 1: Post Offices by Region *)
Definition visualization_1 (t : DataFrame) : run unit :=
  regions ← column_value_counts t "regionname";
  savefig "region_wise_postoffices.png" (BarH regions).

(* Visualization 2: Post Office Types *)
Definition visualization_2 (t : DataFrame) : run unit :=
  types ← column_value_counts t "officetype";
  savefig "postoffice_types.png" (Bar types).

(* Visualization 3: Delivery vs Non-Delivery per State *)
Definition visualization_3 (t : DataFrame) : run unit :=
  states ← grouping_key t "statename";
  deliveries ← grouping_key t "delivery";
  savefig "delivery_vs_non_delivery.png" (delivery_counts states deliveries).

(* Visualization 4: Top 10 States with Most Post Offices; the label
   above each bar is [int(p.get_height())], the height of the bar, which
   is the count (a sheet has too few rows for the float to round it). *)
Definition visualization_4 (t : DataFrame) : run unit :=
  counts ← column_value_counts t "statename";
  let state_counts := head 10 counts in
  savefig "top10_states_postoffices.png"
    (BarLabelled state_counts (snd <$> state_counts)).

(* Visualization 5: Top 10 Districts (Heatmap) *)
Definition visualization_5 (t : DataFrame) : run unit :=
  counts ← column_value_counts t "district";
  let top_districts := head 10 counts in
  savefig "top10_districts_heatmap.png" (Heatmap top_districts).

Definition create_visualizations (df : nat) : run unit :=
  t ← deref df;
  visualization_1 t;;
  visualization_2 t;;
  visualization_3 t;;
  visualization_4 t;;
  visualization_5 t.

(** The spreadsheet writer: [export name t] is the exception with which
    the writer refuses to write [t] under [name], if it does; like the
    renderer, it refuses before anything is written. *)
Variable export : string → DataFrame → option exn.

(** [df.to_excel(name, index=False)] *)
Definition to_excel (t : DataFrame) (name : string) : run unit :=
  match export name t with
  | Some e => raise e
  | None => write_file name (Workbook t)
  end.

Definition file_path : string :=
  "C:\Users\Asus\Downloads\datasetGPTkeLiye.xlsx".

Definition main : run unit :=
  print [Text "Loading and cleaning data..."];;
  df_cleaned ← load_and_clean_data file_path;
  match df_cleaned with
  | Some df =>
      generate_summary_stats df;;
      print [Text (nl ++ "Creating visualizations...")];;
      create_visualizations df;;
      t ← deref df;
      to_excel t "cleaned_postal_dataset.xlsx";;
      print [Text (nl ++ "Cleaned dataset saved as 'cleaned_postal_dataset.xlsx'")];;
      print [Text (nl ++ "All visualizations saved successfully!")]
  | None =>
      print [Text "Failed to process data. Please check the input file and try again."]
  end.
End Script.

(** ** Vocabulary for the statements *)

(** The table the loader builds from the raw table [df], before the check
    of the required columns: the five assignments to [df_cleaned]. *)
Definition cleaned_of (df : DataFrame) : DataFrame :=
  let df_cleaned := copy df in
  let df_cleaned := dropna df_cleaned in
  let df_cleaned := drop_duplicates df_cleaned in
  let df_cleaned :=
    set_columns df_cleaned (str_lower (str_strip (columns df_cleaned))) in
  applymap strip_if_str df_cleaned.

(** The name at which the loop of [verify_columns] stops, if any. *)
Fixpoint first_missing (required labels : list string) : option string :=
  match required with
  | [] => None
  | col :: rest =>
      if decide (col ∈ labels) then first_missing rest labels else Some col
  end.

(** The exception the guarded block of the loader raises on the table
    [t] that [read_excel] returned, if it raises one: the accessor's on a
    sheet without a header, else the one that names the first absent
    column. *)
Definition loader_refusal (t : DataFrame) : option exn :=
  match columns t with
  | [] => Some accessor_error
  | _ =>
      missing_column <$>
        first_missing required_columns (str_lower (str_strip (columns t)))
  end.

(** The table behind the reference a call returned, if it returned one. *)
Definition returned_table (res : outcome (option nat) * state)
  : option DataFrame :=
  match res with
  | (Ok (Some r), s) => heap s !! r
  | _ => None
  end.

(** The line the [except] clause of the loader prints for [e]. *)
Definition diagnostic (e : exn) : list item :=
  [Fmt "Error loading or cleaning data: " e].

(** The two halves of the loader's [try] statement: the guarded block and
    the [except Exception as e] clause. *)
Definition loader_body (file_path : string) : run (option nat) :=
  df ← read_excel file_path;
  let df_cleaned := copy df in
  let df_cleaned := dropna df_cleaned in
  let df_cleaned := drop_duplicates df_cleaned in
  labels ← str_accessor (columns df_cleaned);
  labels ← str_accessor (str_strip labels);
  let df_cleaned := set_columns df_cleaned (str_lower labels) in
  let df_cleaned := applymap strip_if_str df_cleaned in
  verify_columns required_columns (columns df_cleaned);;
  r ← alloc df_cleaned;
  mret (Some r).

Definition loader_handler (e : exn) : run (option nat) :=
  print [Fmt "Error loading or cleaning data: " e];;
  mret None.

(** The exception [read_excel] raises on a path that holds no workbook. *)
Definition read_failure (path : string) (f : option file) : exn :=
  match f with
  | Some (Other complaint) => Raised ValueError complaint
  | Some (Picture _) =>
      Raised ValueError
        "Excel file format cannot be determined, you must specify an engine manually."
  | _ => Raised FileNotFoundError path
  end.

(** How a cell of the input shows in the cleaned table: a string by its
    stripped form, anything else by itself. *)
Definition trimmed_from (before after : cell) : Prop :=
  match before with
  | Str x => after = Str (PyStr.strip x)
  | _ => after = before
  end.

(** [d] lists the distinct values of [col], missing values apart, each
    once; [n] is their number. *)
Definition distinct_values (col d : list cell) : Prop :=
  NoDup d ∧ ∀ v, v ∈ d ↔ v ∈ col ∧ v ≠ NaN.

Definition distinct_count (col : list cell) (n : nat) : Prop :=
  ∃ d, distinct_values col d ∧ length d = n.

(** The row counts of the distinct values of a column, in order of first
    appearance of the values. *)
Definition counts_of_distinct (col : list cell) : list nat :=
  (λ v, count v col) <$> first_occurrences (notna col).

(** Every row of the table has one cell per column. *)
Definition rectangular (t : DataFrame) : Prop :=
  Forall (λ row, length row = length (columns t)) (rows t).

(** The three columns the summary reads, in the order it reads them. *)
Definition summary_columns : list string :=
  ["statename"; "district"; "officetype"].

(** [bars] is the frequency table of [col]: one entry for each distinct
    value that is not missing, with the number of its occurrences, by
    decreasing (not necessarily strictly) number; the numbers add up to
    the number of values that are not missing. *)
Definition frequency_table (col : list cell) (bars : list (cell * nat)) : Prop :=
  NoDup (fst <$> bars) ∧
  (∀ v n, (v, n) ∈ bars ↔ v ∈ col ∧ v ≠ NaN ∧ n = count v col) ∧
  (∀ i j a b, (i < j)%nat → bars !! i = Some a → bars !! j = Some b →
              (snd b ≤ snd a)%nat) ∧
  sum_list (snd <$> bars) = length (notna col).

(** [top] holds the [k] most frequent values of [col], or all of them
    when there are fewer: exact counts, by decreasing count, and no value
    left out occurs more often than a value shown. *)
Definition most_frequent (k : nat) (col : list cell) (top : list (cell * nat))
  : Prop :=
  length top = Nat.min k (nunique col) ∧
  NoDup (fst <$> top) ∧
  (∀ v n, (v, n) ∈ top → v ∈ col ∧ v ≠ NaN ∧ n = count v col) ∧
  (∀ i j a b, (i < j)%nat → top !! i = Some a → top !! j = Some b →
              (snd b ≤ snd a)%nat) ∧
  (∀ v, v ∈ col → v ≠ NaN → v ∉ fst <$> top →
        ∀ w n, (w, n) ∈ top → (count v col ≤ n)%nat) ∧
  ((nunique col ≤ k)%nat → ∀ v, v ∈ col → v ≠ NaN → v ∈ fst <$> top).

(** [index], [cols] and [heights] are the cross table of two columns
    read side by side: the distinct values of each (where neither is
    missing), each once and in the order of [cell_le], and for every pair
    of them the number of rows that hold both, zero when none does. *)
Definition cross_table (states deliveries index cols : list cell)
    (heights : list (list nat)) : Prop :=
  let pairs := zip states deliveries in
  NoDup index ∧ NoDup cols ∧
  Sorted cell_le index ∧ Sorted cell_le cols ∧
  (∀ v, v ∈ index ↔ v ≠ NaN ∧ ∃ d, d ≠ NaN ∧ (v, d) ∈ pairs) ∧
  (∀ d, d ∈ cols ↔ d ≠ NaN ∧ ∃ v, v ≠ NaN ∧ (v, d) ∈ pairs) ∧
  length heights = length index ∧
  Forall (λ row, length row = length cols) heights ∧
  (∀ i j v d, index !! i = Some v → cols !! j = Some d →
     ∃ row n, heights !! i = Some row ∧ row !! j = Some n ∧
              n = count (v, d) pairs ∧ (n = 0%nat ↔ (v, d) ∉ pairs)).

(** The state in which [main] calls the loader: its first line printed. *)
Definition after_banner (s : state) : state :=
  mkState (heap s) (files s)
    (console s ++ [[Text "Loading and cleaning data..."]]).

Definition image_files : gset string :=
  {[ "region_wise_postoffices.png"; "postoffice_types.png";
     "delivery_vs_non_delivery.png"; "top10_states_postoffices.png";
     "top10_districts_heatmap.png" ]}.

Definition export_file : string := "cleaned_postal_dataset.xlsx".

(** A computation is tame within the names [N] when it leaves the heap as
    it was, never looks at the files, and writes only files named in [N]:
    from a given heap and console, it ends the same way whatever the files
    are, having laid the same files [W] over them. *)
Definition tame {A} (N : gset string) (m : run A) : Prop :=
  ∀ h c, ∃ o (W : gmap string file) c',
    dom W ⊆ N ∧
    ∀ fs, m (mkState h fs c) = (o, mkState h (W ∪ fs) c').

(** What [main] does with the reference [df] once the loader has returned
    it: the branch [if df_cleaned is not None]. *)
Definition after_load (render : string → chart → option exn)
    (export : string → DataFrame → option exn) (df : nat) : run unit :=
  generate_summary_stats df;;
  print [Text (nl ++ "Creating visualizations...")];;
  create_visualizations render df;;
  t ← deref df;
  to_excel export t "cleaned_postal_dataset.xlsx";;
  print [Text (nl ++ "Cleaned dataset saved as 'cleaned_postal_dataset.xlsx'")];;
  print [Text (nl ++ "All visualizations saved successfully!")].

(** A computation exports the table [t] held at [r] when, run on a heap
    that holds [t] at [r], it either ends normally with [t] written as
    the exported workbook, or ends on an exception with the exported
    file as it found it. *)
Definition exports {A} (t : DataFrame) (r : nat) (m : run A) : Prop :=
  ∀ s, heap s !! r = Some t →
    match m s with
    | (Ok _, s') => files s' !! export_file = Some (Workbook t)
    | (Raise _, s') => files s' !! export_file = files s !! export_file
    end.

(** The series [df[name]] of a table in which [name] labels one column
    (the empty series otherwise). *)
Definition column (t : DataFrame) (name : string) : list cell :=
  match getitem t name with
  | Series s => s
  | _ => []
  end.





(** A computation that prints nothing. *)
Definition silent {A} (m : run A) : Prop :=
  ∀ s, console (m s).2 = console s.

(** The Loader/Cleaner as the specification words it, step by step, in
    terms of its own: its own list of required columns, its own table of
    whitespace characters and of capital letters, and trimming done on
    the list of characters from both ends. *)
Module Spec.

Definition required : list string :=
  ["statename"; "district"; "officetype"; "regionname"; "delivery"].

(** The whitespace characters, by code point: tab to carriage return,
    the four separators, the space, next line and the no-break space. *)
Definition whitespace : list nat :=
  [9; 10; 11; 12; 13; 28; 29; 30; 31; 32; 133; 160]%nat.

Definition is_whitespace (c : ascii) : bool :=
  bool_decide (nat_of_ascii c ∈ whitespace).

(** The capital letters, each with its small letter: A to Z, then the
    accented capitals of the Latin-1 range. *)
Definition capitals : list (ascii * ascii) :=
  (zip (list_ascii_of_string "ABCDEFGHIJKLMNOPQRSTUVWXYZ")
       (list_ascii_of_string "abcdefghijklmnopqrstuvwxyz")
   ++ zip (ascii_of_nat <$> (seq 192 23 ++ seq 216 7))
          (ascii_of_nat <$> (seq 224 23 ++ seq 248 7)))%list.

Definition small_letter (c : ascii) : ascii :=
  match list_find (λ p : ascii * ascii, p.1 = c) capitals with
  | Some (_, p) => p.2
  | None => c
  end.

Definition lowercased (name : string) : string :=
  string_of_list_ascii (small_letter <$> list_ascii_of_string name).

Fixpoint drop_whitespace (l : list ascii) : list ascii :=
  match l with
  | [] => []
  | c :: l' => if is_whitespace c then drop_whitespace l' else l
  end.

(** Surrounding whitespace stripped: dropped at the front, then at the
    back. *)
Definition trimmed (x : string) : string :=
  string_of_list_ascii
    (rev (drop_whitespace (rev (drop_whitespace (list_ascii_of_string x))))).

Definition copy_raw (t : DataFrame) : DataFrame := t.

Definition has_missing (r : list cell) : bool :=
  existsb (λ c, match c with NaN => true | _ => false end) r.

Definition drop_rows_with_missing (t : DataFrame) : DataFrame :=
  mkFrame (columns t) (List.filter (λ r, negb (has_missing r)) (rows t)).

(** A row is an exact duplicate when an equal row is already kept. *)
Definition drop_exact_duplicates (t : DataFrame) : DataFrame :=
  mkFrame (columns t)
    (fold_left
       (λ (kept : list (list cell)) r,
          if decide (r ∈ kept) then kept else (kept ++ [r])%list)
       (rows t) []).

Definition normalize_names (t : DataFrame) : DataFrame :=
  mkFrame (List.map (λ n, lowercased (trimmed n)) (columns t)) (rows t).

(** A string cell is trimmed; any other cell passes through. *)
Definition trim_cell (c : cell) : cell :=
  match c with
  | Str x => Str (trimmed x)
  | Num _ | NaN => c
  end.

Definition trim_cells (t : DataFrame) : DataFrame :=
  mkFrame (columns t) (List.map (List.map trim_cell) (rows t)).

Definition has_required (t : DataFrame) : bool :=
  forallb (λ c, existsb (String.eqb c) (columns t)) required.

Definition cleaner (raw : DataFrame) : option DataFrame :=
  let t := copy_raw raw in
  let t := drop_rows_with_missing t in
  let t := drop_exact_duplicates t in
  let t := normalize_names t in
  let t := trim_cells t in
  if has_required t then Some t else None.

End Spec.

(** ** Sample inputs *)

Module Samples.

Definition no_render : string → chart → option exn := λ _ _, None.

Definition no_refusal : string → DataFrame → option exn := λ _ _, None.

Definition on_disk (t : DataFrame) : gmap string file :=
  {[ file_path := Workbook t ]}.

(** Mixed-case headers, a row repeated exactly, a row that differs from
    it only by a leading blank, and a row with an empty cell. *)
Definition offices : DataFrame :=
  mkFrame ["StateName "; "District"; "OfficeType"; "RegionName"; "Delivery"]
    [ [Str " Goa"; Str "North Goa"; Str "HO"; Str "Panaji"; Str "Delivery"];
      [Str "Goa"; Str "North Goa"; Str "HO"; Str "Panaji"; Str "Delivery"];
      [Str "Goa"; Str "North Goa"; Str "HO"; Str "Panaji"; Str "Delivery"];
      [Str "Kerala"; NaN; Str "BO"; Str "Kochi"; Str "Delivery"];
      [Str "Kerala"; Str "Idukki "; Str "BO"; Num 7; Str "Non-Delivery"] ].

(** The same sheet without its [Delivery] column. *)
Definition offices_without_delivery : DataFrame :=
  mkFrame ["StateName "; "District"; "OfficeType"; "RegionName"]
    [ [Str "Goa"; Str "North Goa"; Str "HO"; Str "Panaji"];
      [Str "Kerala"; Str "Idukki"; Str "BO"; Str "Kochi"] ].

(** A sheet that lacks both [district] and [delivery]. *)
Definition offices_without_two : DataFrame :=
  mkFrame ["StateName "; "OfficeType"; "RegionName"]
    [ [Str "Goa"; Str "HO"; Str "Panaji"];
      [Str "Kerala"; Str "BO"; Str "Kochi"] ].

(** A sheet with nothing on it: no header, no row. *)
Definition blank_sheet : DataFrame := mkFrame [] [].

(** A sheet with two office-type columns whose headers differ only in
    case and spacing. *)
Definition two_type_columns : DataFrame :=
  mkFrame ["StateName"; "District"; "OfficeType"; "officetype ";
           "RegionName"; "Delivery"]
    [ [Str "Goa"; Str "North Goa"; Str "HO"; Str "H.O.";
       Str "Panaji"; Str "Delivery"];
      [Str "Kerala"; Str "Idukki"; Str "BO"; Str "B.O.";
       Str "Kochi"; Str "Non-Delivery"] ].

(** A sheet whose text cells carry no blank at either end, with a row
    repeated and a row that has an empty cell. *)
Definition neat : DataFrame :=
  mkFrame ["StateName"; "District"; "OfficeType"; "RegionName"; "Delivery"]
    [ [Str "Goa"; Str "North Goa"; Str "HO"; Str "Panaji"; Str "Delivery"];
      [Str "Goa"; Str "North Goa"; Str "HO"; Str "Panaji"; Str "Delivery"];
      [Str "Kerala"; NaN; Str "BO"; Str "Kochi"; Str "Delivery"];
      [Str "Kerala"; Str "Idukki"; Str "BO"; Num 7; Str "Non-Delivery"] ].

(** A sheet without an empty cell or a repeated row. *)
Definition spotless : DataFrame :=
  mkFrame [" StateName"; "District"; "OfficeType"; "RegionName"; "Delivery"]
    [ [Str " Goa"; Str "North Goa"; Str "HO"; Str "Panaji"; Str "Delivery"];
      [Str "Goa"; Str "North Goa"; Str "HO"; Str "Panaji"; Str "Delivery"];
      [Str "Kerala"; Str "Idukki"; Str "BO"; Num 7; Str "Non-Delivery"] ].

(** A cleaned table of four rows. *)
Definition tidy : DataFrame :=
  mkFrame ["statename"; "district"; "officetype"; "regionname"; "delivery"]
    [ [Str "Goa"; Str "North Goa"; Str "HO"; Str "Panaji"; Str "Delivery"];
      [Str "Goa"; Str "South Goa"; Str "BO"; Str "Panaji"; Str "Delivery"];
      [Str "Kerala"; Str "Idukki"; Str "BO"; Str "Kochi"; Str "Non-Delivery"];
      [Str "Kerala"; Str "Idukki"; Str "SO"; Str "Kochi"; Str "Delivery"] ].

(** A cleaned table in which two columns are named [regionname]. *)
Definition two_region_columns : DataFrame :=
  mkFrame ["statename"; "district"; "officetype"; "regionname";
           "regionname"; "delivery"]
    [ [Str "Goa"; Str "North Goa"; Str "HO"; Str "Panaji"; Str "West";
       Str "Delivery"];
      [Str "Kerala"; Str "Idukki"; Str "BO"; Str "Kochi"; Str "South";
       Str "Non-Delivery"] ].

(** A cleaned table in which two columns are named [statename]. *)
Definition two_state_columns : DataFrame :=
  mkFrame ["statename"; "statename"; "district"; "officetype";
           "regionname"; "delivery"]
    [ [Str "Goa"; Str "West"; Str "North Goa"; Str "HO"; Str "Panaji";
       Str "Delivery"];
      [Str "Kerala"; Str "West"; Str "Idukki"; Str "BO"; Str "Kochi";
       Str "Non-Delivery"] ].

(** Fifteen states, the k-th of them with k offices. *)
Definition fifteen_names : list string :=
  ["Goa"; "Sikkim"; "Mizoram"; "Manipur"; "Tripura"; "Nagaland";
   "Meghalaya"; "Haryana"; "Punjab"; "Assam"; "Odisha"; "Kerala";
   "Gujarat"; "Karnataka"; "Bihar"].

Definition offices_of (name : string) (k : nat) : list (list cell) :=
  (λ j : nat, [Str name; Num (Z.of_nat j); Str "BO"; Str "Circle";
               Str "Delivery"]) <$> seq 1 k.

Definition fifteen_states : DataFrame :=
  mkFrame ["statename"; "district"; "officetype"; "regionname"; "delivery"]
    (concat (zip_with offices_of fifteen_names (seq 1 15))).

(** The sheet [offices] on disk, alone and next to an exported file left
    by some earlier run; the machine started on the first. *)
Definition offices_disk : gmap string file := on_disk offices.

Definition offices_disk_stale : gmap string file :=
  <[ export_file := Other "left over" ]> (on_disk offices).

Definition offices_booted : state := boot (on_disk offices).



(** The machine once [tidy] has been loaded at location 0. *)
Definition tidy_loaded : state := mkState {[ 0 := tidy ]} ∅ [].

End Samples.

(** * Properties *)

Import PyStr.
Open Scope nat_scope.

(** ** Facts about [lower] and [strip] *)

Lemma lower_char_not_upper c : isupper (lower_char c) = false.
Proof.
  destruct c as [[] [] [] [] [] [] [] []]; vm_compute; reflexivity.
Qed.

Lemma lower_char_isspace c : isspace (lower_char c) = isspace c.
Proof.
  destruct c as [[] [] [] [] [] [] [] []]; vm_compute; reflexivity.
Qed.

Lemma lower_is_lowercase s : is_lowercase (lower s).
Proof.
  unfold is_lowercase.
  induction s as [|c s IH]; simpl; constructor; auto using lower_char_not_upper.
Qed.

Lemma lower_idempotent s : lower (lower s) = lower s.
Proof.
  induction s as [|c s IH]; simpl; [reflexivity|].
  rewrite IH. f_equal.
  unfold lower_char at 1. now rewrite lower_char_not_upper.
Qed.

Lemma first_char_lower s : first_char (lower s) = lower_char <$> first_char s.
Proof. destruct s; reflexivity. Qed.

Lemma last_char_lower s : last_char (lower s) = lower_char <$> last_char s.
Proof.
  induction s as [|c s IH]; [reflexivity|].
  destruct s as [|d s]; [reflexivity|].
  simpl in *. exact IH.
Qed.

Lemma lower_no_leading_space s : no_leading_space s -> no_leading_space (lower s).
Proof.
  unfold no_leading_space. intros H c. rewrite first_char_lower.
  destruct (first_char s) as [d|]; simpl; [|discriminate].
  intros [= <-]. rewrite lower_char_isspace. auto.
Qed.

Lemma lower_no_trailing_space s : no_trailing_space s -> no_trailing_space (lower s).
Proof.
  unfold no_trailing_space. intros H c. rewrite last_char_lower.
  destruct (last_char s) as [d|]; simpl; [|discriminate].
  intros [= <-]. rewrite lower_char_isspace. auto.
Qed.

Lemma lstrip_no_leading_space s : no_leading_space (lstrip s).
Proof.
  induction s as [|c s IH]; simpl.
  - intros c [=].
  - destruct (isspace c) eqn:E; [exact IH|].
    intros d [= <-]. exact E.
Qed.

Lemma rstrip_no_trailing_space s : no_trailing_space (rstrip s).
Proof.
  induction s as [|c s IH]; simpl.
  - intros c [=].
  - destruct (rstrip s) as [|d r] eqn:E.
    + destruct (isspace c) eqn:Ec; intros x [= <-]. exact Ec.
    + intros x Hx. apply IH. exact Hx.
Qed.


Lemma rstrip_keeps_no_leading_space s :
  no_leading_space s -> no_leading_space (rstrip s).
Proof.
  intros H c Hc. destruct s as [|d s]; simpl in *; [discriminate|].
  specialize (H d eq_refl).
  destruct (rstrip s); [rewrite H in Hc|]; injection Hc as <-; exact H.
Qed.

Lemma strip_no_leading_space s : no_leading_space (strip s).
Proof. apply rstrip_keeps_no_leading_space, lstrip_no_leading_space. Qed.

Lemma strip_no_trailing_space s : no_trailing_space (strip s).
Proof. apply rstrip_no_trailing_space. Qed.


(** ** Facts about first occurrences *)

Section first_seen.
Context {A : Type} `{EqDecision A}.
Implicit Types (l seen : list A) (x : A).

Lemma elem_of_first_seen seen l x :
  x ∈ first_seen seen l ↔ x ∈ l ∧ x ∉ seen.
Proof.
  revert seen. induction l as [|y l IH]; intros seen; simpl.
  - set_solver.
  - destruct (decide (y ∈ seen)) as [Hy|Hy].
    + rewrite IH. set_solver.
    + rewrite elem_of_cons, IH.
      destruct (decide (x = y)) as [->|Hne]; set_solver.
Qed.

Lemma NoDup_first_seen seen l : NoDup (first_seen seen l).
Proof.
  revert seen. induction l as [|y l IH]; intros seen; simpl.
  - constructor.
  - destruct (decide (y ∈ seen)); [apply IH|].
    constructor; [|apply IH].
    rewrite elem_of_first_seen. set_solver.
Qed.

Lemma first_seen_sublist seen l : first_seen seen l `sublist_of` l.
Proof.
  revert seen. induction l as [|y l IH]; intros seen; simpl.
  - constructor.
  - destruct (decide (y ∈ seen)).
    + apply sublist_cons, IH.
    + apply sublist_skip, IH.
Qed.

(** The values kept come in the order in which they first appear: of two
    values kept, the earlier one stands in the list before any occurrence
    of the later one (here through a filter, as [dropna] comes first). *)
Lemma first_seen_filter_order (P : A → Prop) `{∀ x, Decision (P x)}
    seen l i j a b :
  i < j →
  first_seen seen (filter P l) !! i = Some a →
  first_seen seen (filter P l) !! j = Some b →
  ∃ p, l !! p = Some a ∧ ∀ q, q ≤ p → l !! q ≠ Some b.
Proof.
  revert seen i j. induction l as [|y l IH]; intros seen i j Hij Hi Hj.
  - done.
  - assert (∀ seen', b ∈ first_seen seen' (filter P l) →
              (∃ p, l !! p = Some a ∧ ∀ q, q ≤ p → l !! q ≠ Some b) →
              y ≠ b →
              ∃ p, (y :: l) !! p = Some a ∧
                   ∀ q, q ≤ p → (y :: l) !! q ≠ Some b) as Hstep.
    { intros seen' _ (p & Hp & Hq) Hne. exists (S p). split; [done|].
      intros [|q] Hle; simpl; [congruence|]. apply Hq. lia. }
    destruct (decide (P y)) as [HP|HP].
    + rewrite filter_cons_True in Hi, Hj by done. simpl in Hi, Hj.
      destruct (decide (y ∈ seen)) as [Hy|Hy].
      * apply (Hstep seen); [by eapply list_elem_of_lookup_2|by eapply IH|].
        intros ->. apply list_elem_of_lookup_2, elem_of_first_seen in Hj.
        tauto.
      * destruct j as [|j]; [lia|]. simpl in Hj.
        assert (y ≠ b) as Hne.
        { intros ->. apply list_elem_of_lookup_2, elem_of_first_seen in Hj.
          set_solver. }
        destruct i as [|i]; simpl in Hi.
        -- injection Hi as ->. exists 0. split; [done|].
           intros q Hq. assert (q = 0) as -> by lia. simpl. congruence.
        -- apply (Hstep (y :: seen)); [by eapply list_elem_of_lookup_2| |done].
           apply (IH (y :: seen) i j); [lia|done..].
    + rewrite filter_cons_False in Hi, Hj by done.
      apply (Hstep seen); [by eapply list_elem_of_lookup_2|by eapply IH|].
      intros ->. apply list_elem_of_lookup_2, elem_of_first_seen in Hj.
      destruct Hj as [Hj _]. apply list_elem_of_filter in Hj. tauto.
Qed.

Lemma elem_of_first_occurrences l x : x ∈ first_occurrences l ↔ x ∈ l.
Proof. unfold first_occurrences. rewrite elem_of_first_seen. set_solver. Qed.

Lemma NoDup_first_occurrences l : NoDup (first_occurrences l).
Proof. apply NoDup_first_seen. Qed.

Lemma first_occurrences_sublist l : first_occurrences l `sublist_of` l.
Proof. apply first_seen_sublist. Qed.


Lemma count_not_elem_of l x : x ∉ l → count x l = 0.
Proof.
  unfold count. induction l as [|y l IH]; intros Hx; [reflexivity|].
  rewrite not_elem_of_cons in Hx. destruct Hx as [Hne Hx].
  rewrite filter_cons_False by congruence. auto.
Qed.

Lemma count_NoDup l x : NoDup l → x ∈ l → count x l = 1.
Proof.
  induction 1 as [|y k Hy Hk IH]; intros Hx; [inversion Hx|].
  unfold count in *. destruct (decide (y = x)) as [->|Hne].
  - rewrite filter_cons_True by done. simpl. f_equal.
    by apply count_not_elem_of.
  - rewrite filter_cons_False by done.
    apply IH. apply elem_of_cons in Hx as [->|]; done.
Qed.

End first_seen.


(** ** Facts about the loader *)

Lemma verify_columns_first_missing required labels s :
  verify_columns required labels s =
    match first_missing required labels with
    | None => (Ok (), s)
    | Some col => (Raise (missing_column col), s)
    end.
Proof.
  induction required as [|col rest IH]; simpl; [reflexivity|].
  destruct (decide (col ∈ labels)); [exact IH|reflexivity].
Qed.

Lemma first_missing_None required labels :
  first_missing required labels = None ↔ ∀ col, col ∈ required → col ∈ labels.
Proof.
  induction required as [|c rest IH]; simpl.
  - split; [|done]. intros _ col Hcol. inversion Hcol.
  - destruct (decide (c ∈ labels)) as [Hc|Hc].
    + rewrite IH. set_solver.
    + split; [done|]. intros H. exfalso. apply Hc, H. left.
Qed.

Lemma first_missing_Some required labels col :
  first_missing required labels = Some col → col ∈ required ∧ col ∉ labels.
Proof.
  induction required as [|c rest IH]; simpl; [done|].
  destruct (decide (c ∈ labels)) as [Hc|Hc].
  - intros H. destruct (IH H). split; [by right|done].
  - intros [= <-]. split; [left|done].
Qed.

Lemma loader_refusal_with_header t :
  columns t ≠ [] →
  loader_refusal t =
    missing_column <$>
      first_missing required_columns (str_lower (str_strip (columns t))).
Proof. unfold loader_refusal. by destruct (columns t). Qed.

Lemma loader_refusal_without_header t :
  columns t = [] → loader_refusal t = Some accessor_error.
Proof. unfold loader_refusal. by intros ->. Qed.

Lemma loader_refusal_None t :
  loader_refusal t = None ↔
  first_missing required_columns (str_lower (str_strip (columns t))) = None.
Proof.
  unfold loader_refusal. destruct (columns t) as [|c cs]; [done|].
  by destruct (first_missing _ _).
Qed.

Lemma loader_refusal_Exception t e :
  loader_refusal t = Some e → is_Exception e = true.
Proof.
  unfold loader_refusal. destruct (columns t); [by intros [= <-]|].
  destruct (first_missing _ _); [|done]. by intros [= <-].
Qed.

(** What the loader does on a path that holds a workbook. *)
Lemma load_workbook path s t :
  files s !! path = Some (Workbook t) →
  load_and_clean_data path s =
    match loader_refusal t with
    | None =>
        let r := fresh (dom (heap s)) in
        (Ok (Some r),
         mkState (<[r := cleaned_of t]> (heap s)) (files s) (console s))
    | Some e =>
        (Ok None,
         mkState (heap s) (files s) (console s ++ [diagnostic e]))
    end.
Proof.
  intros Hf.
  unfold load_and_clean_data, try_except, mbind, run_bind, read_excel.
  rewrite Hf. cbv zeta. unfold loader_refusal.
  change (columns (drop_duplicates (dropna (copy t)))) with (columns t).
  destruct (columns t) as [|c cs] eqn:Hcols; [reflexivity|].
  cbn [str_accessor str_strip fmap list_fmap mret run_ret].
  rewrite verify_columns_first_missing.
  unfold cleaned_of.
  change (columns (drop_duplicates (dropna (copy t)))) with (columns t).
  rewrite Hcols.
  cbn [str_strip fmap list_fmap set_columns applymap columns].
  destruct (first_missing required_columns _); reflexivity.
Qed.

(** What the loader does on a path that holds none. *)
Lemma load_no_workbook path s :
  (∀ t, files s !! path ≠ Some (Workbook t)) →
  load_and_clean_data path s =
    (Ok None,
     mkState (heap s) (files s)
       (console s ++ [diagnostic (read_failure path (files s !! path))])).
Proof.
  intros Hf.
  unfold load_and_clean_data, try_except, mbind, run_bind, read_excel.
  destruct (files s !! path) as [[t| |]|]; try reflexivity.
  by destruct (Hf t).
Qed.

(** ** The loader against the specification's steps *)

Lemma columns_cleaned_of t :
  columns (cleaned_of t) = str_lower (str_strip (columns t)).
Proof. reflexivity. Qed.

Lemma rows_cleaned_of t :
  rows (cleaned_of t) =
    (λ r : list cell, strip_if_str <$> r)
      <$> first_occurrences (filter (λ r, NaN ∉ r) (rows t)).
Proof. reflexivity. Qed.

(** A table comes back only from a workbook whose cleaned form has the
    five columns, and it is that cleaned form. *)
Lemma returned_table_inv path s t' :
  returned_table (load_and_clean_data path s) = Some t' →
  ∃ t, files s !! path = Some (Workbook t) ∧ t' = cleaned_of t ∧
       first_missing required_columns (columns t') = None.
Proof.
  destruct (files s !! path) as [[t| |]|] eqn:Hf.
  - rewrite (load_workbook _ _ _ Hf).
    destruct (loader_refusal t) eqn:Hm; simpl; [done|].
    rewrite lookup_insert_eq. intros [= <-].
    apply loader_refusal_None in Hm. eauto.
  - rewrite load_no_workbook by (intros t; congruence). done.
  - rewrite load_no_workbook by (intros t; congruence). done.
  - rewrite load_no_workbook by (intros t; congruence). done.
Qed.

Lemma returned_table_workbook path s t :
  files s !! path = Some (Workbook t) →
  returned_table (load_and_clean_data path s) =
    match first_missing required_columns (columns (cleaned_of t)) with
    | None => Some (cleaned_of t)
    | Some _ => None
    end.
Proof.
  intros Hf. rewrite (load_workbook _ _ _ Hf). rewrite columns_cleaned_of.
  destruct (first_missing required_columns _) eqn:Hfm.
  - destruct (loader_refusal t) eqn:Hm; [done|].
    apply loader_refusal_None in Hm. congruence.
  - apply loader_refusal_None in Hfm. rewrite Hfm.
    cbn [returned_table heap]. by rewrite lookup_insert_eq.
Qed.

Section spec_steps.
Import Spec.

Lemma map_fmap {A B} (f g : A → B) (l : list A) :
  (∀ x, f x = g x) → List.map f l = g <$> l.
Proof.
  intros Hfg. induction l as [|x l IH]; [done|]. simpl. by rewrite Hfg, IH.
Qed.

Lemma is_whitespace_isspace c : is_whitespace c = PyStr.isspace c.
Proof.
  destruct c as [[] [] [] [] [] [] [] []]; vm_compute; reflexivity.
Qed.

Lemma small_letter_lower_char c : small_letter c = PyStr.lower_char c.
Proof.
  destruct c as [[] [] [] [] [] [] [] []]; vm_compute; reflexivity.
Qed.

Lemma lowercased_lower name : lowercased name = PyStr.lower name.
Proof.
  unfold lowercased.
  rewrite <- (string_of_list_ascii_of_string name) at 2.
  induction (list_ascii_of_string name) as [|c l IH]; [done|].
  cbn [fmap list_fmap string_of_list_ascii PyStr.lower].
  f_equal; [apply small_letter_lower_char|exact IH].
Qed.

Lemma drop_whitespace_lstrip x :
  drop_whitespace (list_ascii_of_string x)
  = list_ascii_of_string (PyStr.lstrip x).
Proof.
  induction x as [|c x IH]; [done|]. simpl.
  rewrite is_whitespace_isspace. by destruct (PyStr.isspace c).
Qed.

Lemma drop_whitespace_app l k :
  drop_whitespace (l ++ k) =
    match drop_whitespace l with
    | [] => drop_whitespace k
    | r => (r ++ k)%list
    end.
Proof.
  induction l as [|c l IH]; simpl.
  - by destruct (drop_whitespace k).
  - destruct (is_whitespace c); [exact IH|done].
Qed.

Lemma drop_whitespace_at_the_back x :
  rev (drop_whitespace (rev (list_ascii_of_string x)))
  = list_ascii_of_string (PyStr.rstrip x).
Proof.
  induction x as [|c x IH]; [done|].
  cbn [list_ascii_of_string rev PyStr.rstrip].
  rewrite drop_whitespace_app.
  assert (drop_whitespace (rev (list_ascii_of_string x))
          = rev (list_ascii_of_string (PyStr.rstrip x))) as ->.
  { by rewrite <- IH, rev_involutive. }
  destruct (PyStr.rstrip x) as [|d r].
  - simpl. rewrite is_whitespace_isspace. by destruct (PyStr.isspace c).
  - destruct (rev (list_ascii_of_string (String d r))) as [|e l] eqn:Hrev.
    + apply (f_equal (@length ascii)) in Hrev.
      rewrite length_rev in Hrev. done.
    + rewrite <- Hrev, rev_unit, rev_involutive. done.
Qed.

Lemma trimmed_strip x : trimmed x = PyStr.strip x.
Proof.
  unfold trimmed, PyStr.strip.
  rewrite drop_whitespace_lstrip, drop_whitespace_at_the_back.
  apply string_of_list_ascii_of_string.
Qed.

Lemma has_missing_elem_of r : has_missing r = true ↔ NaN ∈ r.
Proof.
  unfold has_missing. induction r as [|c r IH]; simpl.
  - split; [done|]. intros H. inversion H.
  - rewrite elem_of_cons, orb_true_iff, IH.
    destruct c; naive_solver.
Qed.

Lemma drop_rows_with_missing_dropna t :
  drop_rows_with_missing t = dropna t.
Proof.
  unfold drop_rows_with_missing, dropna. f_equal.
  induction (rows t) as [|r l IH]; [reflexivity|].
  simpl. rewrite filter_cons.
  destruct (decide (NaN ∉ r)) as [Hr|Hr].
  - assert (has_missing r = false) as ->.
    { destruct (has_missing r) eqn:E; [|done].
      apply has_missing_elem_of in E. done. }
    simpl. by rewrite IH.
  - assert (has_missing r = true) as ->.
    { apply has_missing_elem_of. by apply dec_stable. }
    simpl. exact IH.
Qed.

Lemma fold_kept_first_seen (l kept seen : list (list cell)) :
  (∀ r, r ∈ seen ↔ r ∈ kept) →
  fold_left
    (λ (kept : list (list cell)) r,
       if decide (r ∈ kept) then kept else (kept ++ [r])%list) l kept
  = (kept ++ first_seen seen l)%list.
Proof.
  revert kept seen. induction l as [|r l IH]; intros kept seen Hs; simpl.
  - by rewrite app_nil_r.
  - destruct (decide (r ∈ kept)) as [Hk|Hk];
      destruct (decide (r ∈ seen)) as [Hn|Hn];
      try (exfalso; naive_solver).
    + by apply IH.
    + rewrite (IH (kept ++ [r])%list (r :: seen)).
      * by rewrite <- app_assoc.
      * intros x. rewrite elem_of_cons, elem_of_app, list_elem_of_singleton.
        naive_solver.
Qed.

Lemma drop_exact_duplicates_drop_duplicates t :
  drop_exact_duplicates t = drop_duplicates t.
Proof.
  unfold drop_exact_duplicates, drop_duplicates, first_occurrences.
  f_equal. by rewrite (fold_kept_first_seen _ [] []).
Qed.

Lemma trim_cell_strip_if_str c : trim_cell c = strip_if_str c.
Proof. destruct c; [|done..]. unfold trim_cell. simpl. by rewrite trimmed_strip. Qed.

Lemma trim_cells_applymap t : trim_cells t = applymap strip_if_str t.
Proof.
  unfold trim_cells, applymap. f_equal.
  apply map_fmap. intros r. apply map_fmap, trim_cell_strip_if_str.
Qed.

Lemma normalize_names_set_columns t :
  normalize_names t = set_columns t (str_lower (str_strip (columns t))).
Proof.
  unfold normalize_names, set_columns, str_lower, str_strip. f_equal.
  rewrite <- list_fmap_compose. apply map_fmap. intros name. simpl.
  by rewrite lowercased_lower, trimmed_strip.
Qed.

Lemma has_required_first_missing t :
  has_required t = true ↔ first_missing required_columns (columns t) = None.
Proof.
  unfold has_required. rewrite first_missing_None, forallb_forall.
  change required with required_columns.
  assert (∀ col, existsb (String.eqb col) (columns t) = true ↔ col ∈ columns t)
    as Hex.
  { intros col. rewrite existsb_exists. split.
    - intros (h & Hin & Heq). apply String.eqb_eq in Heq as ->.
      by apply list_elem_of_In.
    - intros Hin. exists col. split; [by apply list_elem_of_In|].
      apply String.eqb_refl. }
  split.
  - intros H col Hcol. apply Hex, H. by apply list_elem_of_In.
  - intros H col Hcol. apply Hex, H. by apply list_elem_of_In.
Qed.

Lemma steps_cleaned_of t :
  trim_cells (normalize_names (drop_exact_duplicates
    (drop_rows_with_missing (copy_raw t)))) = cleaned_of t.
Proof.
  unfold copy_raw.
  rewrite trim_cells_applymap, normalize_names_set_columns,
    drop_exact_duplicates_drop_duplicates, drop_rows_with_missing_dropna.
  reflexivity.
Qed.
End spec_steps.

(** C2. Whatever workbook the path holds, the table the loader returns is
    the one obtained by the specification's steps in their order: copy,
    rows with a missing value dropped, exact duplicates dropped, names
    stripped and lowercased, string cells trimmed, then the check for the
    five required columns (nothing is returned when it fails). *)
Theorem loader_performs_the_steps_in_order path s t :
  files s !! path = Some (Workbook t) →
  returned_table (load_and_clean_data path s) = Spec.cleaner t.
Proof.
  intros Hf. rewrite (returned_table_workbook _ _ _ Hf).
  unfold Spec.cleaner. cbv zeta. rewrite steps_cleaned_of.
  destruct (Spec.has_required (cleaned_of t)) eqn:Hreq.
  - apply has_required_first_missing in Hreq. by rewrite Hreq.
  - destruct (first_missing _ _) eqn:Hm; [done|].
    apply has_required_first_missing in Hm. congruence.
Qed.

Lemma loader_performs_the_steps_in_order_witness :
  returned_table
    (load_and_clean_data file_path (boot (Samples.on_disk Samples.offices)))
  = Spec.cleaner Samples.offices.
Proof.
  apply (loader_performs_the_steps_in_order file_path
           (boot (Samples.on_disk Samples.offices)) Samples.offices).
  vm_compute. reflexivity.
Defined.

(** ** Failure of the loader *)

(** The loader writes no file. *)
Lemma loader_files path s : files (load_and_clean_data path s).2 = files s.
Proof.
  destruct (files s !! path) as [[t| |]|] eqn:Hf.
  - rewrite (load_workbook _ _ _ Hf). by destruct (loader_refusal t).
  - by rewrite load_no_workbook by (intros t; congruence).
  - by rewrite load_no_workbook by (intros t; congruence).
  - by rewrite load_no_workbook by (intros t; congruence).
Qed.

Lemma loader_is_its_try_statement path :
  load_and_clean_data path = try_except (loader_body path) loader_handler.
Proof. reflexivity. Qed.

(** What the guarded block does by itself. *)
Lemma loader_body_outcome path s :
  loader_body path s =
    match files s !! path with
    | Some (Workbook t) =>
        match loader_refusal t with
        | None =>
            let r := fresh (dom (heap s)) in
            (Ok (Some r),
             mkState (<[r := cleaned_of t]> (heap s)) (files s) (console s))
        | Some e => (Raise e, s)
        end
    | f => (Raise (read_failure path f), s)
    end.
Proof.
  unfold loader_body, mbind, run_bind, read_excel.
  destruct (files s !! path) as [[t| |]|]; try reflexivity.
  cbv zeta. unfold loader_refusal.
  change (columns (drop_duplicates (dropna (copy t)))) with (columns t).
  destruct (columns t) as [|c cs] eqn:Hcols; [reflexivity|].
  cbn [str_accessor str_strip fmap list_fmap mret run_ret].
  rewrite verify_columns_first_missing.
  unfold cleaned_of.
  change (columns (drop_duplicates (dropna (copy t)))) with (columns t).
  rewrite Hcols.
  cbn [str_strip fmap list_fmap set_columns applymap columns].
  destruct (first_missing required_columns _); reflexivity.
Qed.

(** The guarded block raises nothing but instances of [Exception]. *)
Lemma loader_body_raises_Exception path s e s' :
  loader_body path s = (Raise e, s') → is_Exception e = true.
Proof.
  rewrite loader_body_outcome.
  destruct (files s !! path) as [[t| |]|].
  - destruct (loader_refusal t) eqn:Hm; [|done].
    intros [= <- _]. by eapply loader_refusal_Exception.
  - by intros [= <- _].
  - by intros [= <- _].
  - by intros [= <- _].
Qed.

(** C10. The loader never lets an exception out.  Whatever the path holds
    (nothing, a file that is no workbook, a workbook without a required
    column, a good workbook), the call returns a reference to a table or
    [None]: when the guarded block returns, so does the loader, with the
    same result; when it raises, the exception is an [Exception], the
    [except] clause prints one diagnostic line for it and the loader
    returns [None]. *)
Theorem loader_never_raises path s :
  (∃ res s', load_and_clean_data path s = (Ok res, s')) ∧
  match loader_body path s with
  | (Ok res, s') => load_and_clean_data path s = (Ok res, s')
  | (Raise e, s') =>
      is_Exception e = true ∧
      load_and_clean_data path s =
        (Ok None,
         mkState (heap s') (files s') (console s' ++ [diagnostic e]))
  end.
Proof.
  rewrite loader_is_its_try_statement. unfold try_except.
  pose proof (loader_body_raises_Exception path s) as Hexn.
  destruct (loader_body path s) as [[res|e] s'].
  - split; [by eauto|done].
  - rewrite (Hexn e s' eq_refl). unfold loader_handler, mbind, run_bind, print.
    simpl. split; [by eauto|done].
Qed.

(** C1. When a required column is absent once the names are stripped and
    lowercased, the loader returns [None] after the diagnostic of the
    exception it caught (the one naming an absent column; on a sheet
    without a header, the accessor's [AttributeError]); the orchestrator
    prints its failure message and stops, and the file system is left as
    it was, so none of the five images nor the spreadsheet is written. *)
Theorem missing_required_column_stops_the_run render export s t col :
  files s !! file_path = Some (Workbook t) →
  col ∈ required_columns →
  col ∉ str_lower (str_strip (columns t)) →
  ∃ e,
    is_Exception e = true ∧
    (columns t ≠ [] →
     ∃ absent,
       absent ∈ required_columns ∧
       (absent ∉ str_lower (str_strip (columns t))) ∧
       e = missing_column absent) ∧
    (columns t = [] → kind e = AttributeError) ∧
    load_and_clean_data file_path s =
      (Ok None,
       mkState (heap s) (files s) (console s ++ [diagnostic e])) ∧
    main render export s =
      (Ok (),
       mkState (heap s) (files s)
         (console s ++
          [ [Text "Loading and cleaning data..."];
            diagnostic e;
            [Text "Failed to process data. Please check the input file and try again."] ])).
Proof.
  intros Hf Hreq Habs.
  destruct (loader_refusal t) as [e|] eqn:Hm.
  - exists e. split; [by eapply loader_refusal_Exception|].
    split.
    { intros Hcols. rewrite loader_refusal_with_header in Hm by done.
      destruct (first_missing _ _) as [absent|] eqn:Hfm; [|done].
      injection Hm as <-. exists absent.
      destruct (first_missing_Some _ _ _ Hfm). done. }
    split.
    { intros Hcols. rewrite loader_refusal_without_header in Hm by done.
      by injection Hm as <-. }
    split.
    + by rewrite (load_workbook _ _ _ Hf), Hm.
    + unfold main, mbind, run_bind, print at 1.
      rewrite (load_workbook file_path _ t) by done.
      rewrite Hm. unfold print. simpl.
      by rewrite <- !app_assoc.
  - exfalso. apply Habs. apply loader_refusal_None in Hm.
    by apply (proj1 (first_missing_None _ _) Hm).
Qed.

Lemma missing_required_column_stops_the_run_witness :
  ∃ e,
    is_Exception e = true ∧
    (columns Samples.offices_without_delivery ≠ [] →
     ∃ absent,
       absent ∈ required_columns ∧
       (absent ∉ str_lower (str_strip (columns Samples.offices_without_delivery))) ∧
       e = missing_column absent) ∧
    (columns Samples.offices_without_delivery = [] → kind e = AttributeError) ∧
    load_and_clean_data file_path
      (boot (Samples.on_disk Samples.offices_without_delivery)) =
      (Ok None,
       mkState (heap (boot (Samples.on_disk Samples.offices_without_delivery)))
         (files (boot (Samples.on_disk Samples.offices_without_delivery)))
         (console (boot (Samples.on_disk Samples.offices_without_delivery))
          ++ [diagnostic e])) ∧
    main Samples.no_render Samples.no_refusal
      (boot (Samples.on_disk Samples.offices_without_delivery)) =
      (Ok (),
       mkState (heap (boot (Samples.on_disk Samples.offices_without_delivery)))
         (files (boot (Samples.on_disk Samples.offices_without_delivery)))
         (console (boot (Samples.on_disk Samples.offices_without_delivery)) ++
          [ [Text "Loading and cleaning data..."];
            diagnostic e;
            [Text "Failed to process data. Please check the input file and try again."] ])).
Proof.
  apply (missing_required_column_stops_the_run Samples.no_render
           Samples.no_refusal
           (boot (Samples.on_disk Samples.offices_without_delivery))
           Samples.offices_without_delivery "delivery").
  - vm_compute. reflexivity.
  - compute_done.
  - compute_done.
Defined.

(** The blank sheet, worked out: the accessor's exception is caught
    before the columns are checked, and the run stops as for any other
    failure of the loader. *)
Example run_on_a_blank_sheet :
  main Samples.no_render Samples.no_refusal
    (boot (Samples.on_disk Samples.blank_sheet))
  = (Ok (),
     mkState ∅ (Samples.on_disk Samples.blank_sheet)
       [ [Text "Loading and cleaning data..."];
         [Fmt "Error loading or cleaning data: " accessor_error];
         [Text "Failed to process data. Please check the input file and try again."] ]).
Proof. vm_compute. reflexivity. Qed.

(** ** The cleaned table *)

(** C5. Every column name of the table the loader returns is lowercase
    and carries no whitespace at either end, whatever the case and the
    spacing of the names in the workbook. *)
Theorem cleaned_column_names_normalised path s t' :
  returned_table (load_and_clean_data path s) = Some t' →
  Forall (λ name, is_lowercase name ∧
                  no_leading_space name ∧ no_trailing_space name)
         (columns t').
Proof.
  intros Hret. apply returned_table_inv in Hret as (t & _ & -> & _).
  rewrite columns_cleaned_of. unfold str_lower, str_strip.
  rewrite Forall_fmap, Forall_fmap. apply Forall_forall. intros name _.
  simpl. split; [apply lower_is_lowercase|]. split.
  - apply lower_no_leading_space, strip_no_leading_space.
  - apply lower_no_trailing_space, strip_no_trailing_space.
Qed.

Lemma cleaned_column_names_normalised_witness :
  Forall (λ name, is_lowercase name ∧
                  no_leading_space name ∧ no_trailing_space name)
         (columns (cleaned_of Samples.offices)).
Proof.
  apply (cleaned_column_names_normalised file_path
           (boot (Samples.on_disk Samples.offices))).
  vm_compute. reflexivity.
Defined.

Lemma strip_if_str_trimmed_from c : trimmed_from c (strip_if_str c).
Proof. by destruct c. Qed.

(** C4. In the table the loader returns, a string cell has no whitespace
    at either end, and the rows are, in order, rows of the input whose
    cells are unchanged unless they are strings, which are stripped. *)
Theorem cleaned_cells_trimmed_others_untouched path s t t' :
  files s !! path = Some (Workbook t) →
  returned_table (load_and_clean_data path s) = Some t' →
  (∀ row x, row ∈ rows t' → Str x ∈ row →
            no_leading_space x ∧ no_trailing_space x) ∧
  ∃ kept, kept `sublist_of` rows t ∧
          Forall2 (Forall2 trimmed_from) kept (rows t').
Proof.
  intros Hf Hret. apply returned_table_inv in Hret as (t0 & Hf0 & -> & _).
  assert (t0 = t) as -> by congruence. clear Hf0.
  rewrite rows_cleaned_of. split.
  - intros row x Hrow Hx.
    apply list_elem_of_fmap in Hrow as (src & -> & _).
    apply list_elem_of_fmap in Hx as (c & Hc & _).
    destruct c as [y| |]; simpl in Hc; try discriminate.
    injection Hc as ->.
    split; [apply strip_no_leading_space|apply strip_no_trailing_space].
  - exists (first_occurrences (filter (λ r, NaN ∉ r) (rows t))). split.
    + etrans; [apply first_occurrences_sublist|apply sublist_filter].
    + apply Forall2_fmap_r, Forall_Forall2_diag, Forall_forall.
      intros row _.
      apply Forall2_fmap_r, Forall_Forall2_diag, Forall_forall.
      intros c _. apply strip_if_str_trimmed_from.
Qed.

Lemma cleaned_cells_trimmed_others_untouched_witness :
  (∀ row x, row ∈ rows (cleaned_of Samples.offices) → Str x ∈ row →
            no_leading_space x ∧ no_trailing_space x) ∧
  ∃ kept, kept `sublist_of` rows Samples.offices ∧
          Forall2 (Forall2 trimmed_from) kept (rows (cleaned_of Samples.offices)).
Proof.
  apply (cleaned_cells_trimmed_others_untouched file_path
           (boot (Samples.on_disk Samples.offices))).
  - vm_compute. reflexivity.
  - vm_compute. reflexivity.
Defined.

(** C3, as stated, fails: duplicates are dropped before the cells are
    trimmed, so two rows that differ only by a blank both survive and come
    out equal.  The input below also holds an exact duplicate. *)
Lemma cleaned_table_may_repeat_a_row :
  returned_table
    (load_and_clean_data file_path (boot (Samples.on_disk Samples.offices)))
    = Some (cleaned_of Samples.offices) ∧
  ¬ NoDup (filter (λ r, NaN ∉ r) (rows Samples.offices)) ∧
  rows (cleaned_of Samples.offices) !! 0
    = rows (cleaned_of Samples.offices) !! 1 ∧
  ¬ NoDup (rows (cleaned_of Samples.offices)).
Proof.
  split; [vm_compute; reflexivity|]. split; [compute_done|].
  split; [vm_compute; reflexivity|compute_done].
Qed.

(** C3, amended.  The table the loader returns holds, in order of first
    appearance, one row for each distinct row of the input without a
    missing value: that row with its string cells stripped.  The order is
    that of first appearance: of two rows kept, the earlier one stands in
    the input before any occurrence of the later one.  Hence two rows of
    the cleaned table are equal only when they come from two different
    input rows that agree once stripped. *)
Theorem cleaned_rows_one_per_distinct_source path s t t' :
  files s !! path = Some (Workbook t) →
  returned_table (load_and_clean_data path s) = Some t' →
  ∃ kept,
    rows t' = (λ r : list cell, strip_if_str <$> r) <$> kept ∧
    NoDup kept ∧
    (∀ r, r ∈ kept ↔ r ∈ rows t ∧ NaN ∉ r) ∧
    (∀ r, r ∈ rows t → NaN ∉ r → count r kept = 1) ∧
    (∀ i j ri rj, i < j → kept !! i = Some ri → kept !! j = Some rj →
       ∃ p, rows t !! p = Some ri ∧ ∀ q, q ≤ p → rows t !! q ≠ Some rj) ∧
    (∀ i j r, i ≠ j → rows t' !! i = Some r → rows t' !! j = Some r →
       ∃ ri rj, kept !! i = Some ri ∧ kept !! j = Some rj ∧ ri ≠ rj ∧
                strip_if_str <$> ri = r ∧ strip_if_str <$> rj = r).
Proof.
  intros Hf Hret. apply returned_table_inv in Hret as (t0 & Hf0 & -> & _).
  assert (t0 = t) as -> by congruence. clear Hf0.
  exists (first_occurrences (filter (λ r, NaN ∉ r) (rows t))).
  split; [apply rows_cleaned_of|].
  split; [apply NoDup_first_occurrences|].
  assert (∀ r, r ∈ first_occurrences (filter (λ r, NaN ∉ r) (rows t))
               ↔ r ∈ rows t ∧ NaN ∉ r) as Hmem.
  { intros r. rewrite elem_of_first_occurrences, list_elem_of_filter.
    naive_solver. }
  split; [exact Hmem|]. split; [|split].
  - intros r Hr Hna. apply count_NoDup; [apply NoDup_first_occurrences|].
    by apply Hmem.
  - intros i j ri rj Hij Hi Hj.
    by apply (first_seen_filter_order (λ r, NaN ∉ r) [] (rows t) i j).
  - intros i j r Hij. rewrite rows_cleaned_of, !list_lookup_fmap.
    destruct (_ !! i) as [ri|] eqn:Hi; [|done].
    destruct (_ !! j) as [rj|] eqn:Hj; [|done].
    simpl. intros [= Hri] [= Hrj]. exists ri, rj.
    split; [done|]. split; [done|]. split; [|done].
    intros ->. apply Hij.
    eapply (NoDup_lookup _ i j rj); [|exact Hi|exact Hj].
    apply NoDup_first_occurrences.
Qed.

Lemma cleaned_rows_one_per_distinct_source_witness :
  ∃ kept,
    rows (cleaned_of Samples.offices)
      = (λ r : list cell, strip_if_str <$> r) <$> kept ∧
    NoDup kept ∧
    (∀ r, r ∈ kept ↔ r ∈ rows Samples.offices ∧ NaN ∉ r) ∧
    (∀ r, r ∈ rows Samples.offices → NaN ∉ r → count r kept = 1) ∧
    (∀ i j ri rj, i < j → kept !! i = Some ri → kept !! j = Some rj →
       ∃ p, rows Samples.offices !! p = Some ri ∧
            ∀ q, q ≤ p → rows Samples.offices !! q ≠ Some rj) ∧
    (∀ i j r, i ≠ j →
       rows (cleaned_of Samples.offices) !! i = Some r →
       rows (cleaned_of Samples.offices) !! j = Some r →
       ∃ ri rj, kept !! i = Some ri ∧ kept !! j = Some rj ∧ ri ≠ rj ∧
                strip_if_str <$> ri = r ∧ strip_if_str <$> rj = r).
Proof.
  apply (cleaned_rows_one_per_distinct_source file_path
           (boot (Samples.on_disk Samples.offices))).
  - vm_compute. reflexivity.
  - vm_compute. reflexivity.
Defined.

(** ** The summary *)

Lemma nunique_distinct_count col : distinct_count col (nunique col).
Proof.
  exists (first_occurrences (notna col)). split; [|done]. split.
  - apply NoDup_first_occurrences.
  - intros v. unfold notna.
    rewrite elem_of_first_occurrences, list_elem_of_filter. naive_solver.
Qed.

(** A list without repetition whose members are all [a] is [[a]]. *)
Lemma NoDup_all_equal {A} (l : list A) (a : A) :
  NoDup l → (∀ x, x ∈ l ↔ x = a) → l = [a].
Proof.
  intros Hnd Hmem. destruct l as [|y l].
  - exfalso. by apply (not_elem_of_nil a), Hmem.
  - assert (y = a) as -> by (apply Hmem; left).
    inversion Hnd as [|? ? Ha Hl]; subst.
    destruct l as [|z l]; [done|].
    exfalso. apply Ha.
    assert (z = a) as -> by (apply Hmem; right; left). left.
Qed.

(** When no two columns share a label, a label that is present selects a
    series. *)
Lemma getitem_series t name :
  NoDup (columns t) → name ∈ columns t →
  ∃ i, columns t !! i = Some name ∧ getitem t name = Series (column_at t i).
Proof.
  intros Hnd Hin. apply list_elem_of_lookup in Hin as [i Hi].
  exists i. split; [done|]. unfold getitem.
  rewrite (NoDup_all_equal (positions name (columns t)) i); [done| |].
  - apply NoDup_filter, NoDup_seq.
  - intros j. unfold positions. rewrite list_elem_of_filter, elem_of_seq.
    split.
    + intros [Hj _]. by apply (NoDup_lookup _ j i name Hnd).
    + intros ->. split; [done|]. apply lookup_lt_Some in Hi. lia.
Qed.

Lemma elem_of_positions name labels i :
  i ∈ positions name labels ↔ labels !! i = Some name.
Proof.
  unfold positions. rewrite list_elem_of_filter, elem_of_seq.
  split; [tauto|]. intros Hi. split; [done|].
  apply lookup_lt_Some in Hi. lia.
Qed.

Lemma length_filter_shifted (P : nat → Prop) `{∀ i, Decision (P i)}
    (l : list nat) :
  length (filter P (S <$> l)) = length (filter (λ i, P (S i)) l).
Proof.
  induction l as [|a l IH]; [done|].
  rewrite fmap_cons, !filter_cons.
  destruct (decide (P (S a))); simpl; by rewrite IH.
Qed.

(** A label stands at as many positions as it occurs. *)
Lemma length_positions name labels :
  length (positions name labels) = count name labels.
Proof.
  unfold positions, count. induction labels as [|y l IH]; [done|].
  cbn [length seq]. rewrite <- fmap_S_seq.
  rewrite filter_cons, (filter_cons (λ y, y = name)).
  pose proof (length_filter_shifted (λ i, (y :: l) !! i = Some name)
                (seq 0 (length l))) as Hshift.
  cbn [lookup list_lookup] in *.
  destruct (decide (Some y = Some name)) as [Hy|Hy];
    destruct (decide (y = name)) as [Hy'|Hy']; try congruence;
    cbn [length]; rewrite Hshift; [f_equal|]; apply IH.
Qed.

(** A label that names exactly one column selects a series. *)
Lemma getitem_single t name :
  count name (columns t) = 1 →
  ∃ i, columns t !! i = Some name ∧ getitem t name = Series (column_at t i).
Proof.
  intros Hone. rewrite <- length_positions in Hone. unfold getitem.
  destruct (positions name (columns t)) as [|i [|j ps]] eqn:Hps;
    try discriminate.
  exists i. split; [|done].
  apply elem_of_positions. rewrite Hps. left.
Qed.

(** A label that is present selects something. *)
Lemma getitem_present t name :
  name ∈ columns t → getitem t name ≠ Missing.
Proof.
  intros Hin. apply list_elem_of_lookup in Hin as [i Hi].
  apply elem_of_positions in Hi. unfold getitem.
  destruct (positions name (columns t)) as [|i' [|j ps]]; [|done..].
  inversion Hi.
Qed.

(** C6, amended. Given a table in which each of [statename], [district]
    and [officetype] names exactly one column, the summary prints, after
    its heading and in this order, the number of rows, the number of
    distinct states, the number of distinct districts and the distinct
    office types themselves (each once, in order of first appearance); it
    returns nothing, writes no file and leaves the table as it is. *)
Theorem summary_prints_the_figures_in_order df s t :
  heap s !! df = Some t →
  (∀ name, name ∈ summary_columns → count name (columns t) = 1) →
  ∃ states districts types n_states n_districts office_types,
    getitem t "statename" = Series states ∧
    getitem t "district" = Series districts ∧
    getitem t "officetype" = Series types ∧
    generate_summary_stats df s =
      (Ok (),
       mkState (heap s) (files s)
         (console s ++
          [ [Text (nl ++ "=== BASIC SUMMARY ===")];
            [Text "Total Entries After Cleaning:"; Int (length (rows t))];
            [Text "Unique States:"; Int n_states];
            [Text "Unique Districts:"; Int n_districts];
            [Text "Unique Office Types:"; Values office_types] ])) ∧
    distinct_count states n_states ∧
    distinct_count districts n_districts ∧
    NoDup office_types ∧
    (∀ v, v ∈ office_types ↔ v ∈ types).
Proof.
  intros Hdf Hone.
  destruct (getitem_single t "statename") as (i1 & _ & Hs);
    [apply Hone; compute_done|].
  destruct (getitem_single t "district") as (i2 & _ & Hd);
    [apply Hone; compute_done|].
  destruct (getitem_single t "officetype") as (i3 & _ & Ht);
    [apply Hone; compute_done|].
  exists (column_at t i1), (column_at t i2), (column_at t i3).
  exists (nunique (column_at t i1)), (nunique (column_at t i2)),
    (unique (column_at t i3)).
  do 3 (split; [done|]).
  split; [|split; [apply nunique_distinct_count|
           split; [apply nunique_distinct_count|
           split; [apply NoDup_first_occurrences|
                   intros v; apply elem_of_first_occurrences]]]].
  unfold generate_summary_stats, mbind, run_bind, deref.
  rewrite Hdf. unfold column_nunique, column_unique.
  rewrite Hs, Hd, Ht. unfold print, mret, run_ret, len. simpl.
  by rewrite <- !app_assoc.
Qed.

Lemma summary_prints_the_figures_in_order_witness :
  ∃ states districts types n_states n_districts office_types,
    getitem Samples.tidy "statename" = Series states ∧
    getitem Samples.tidy "district" = Series districts ∧
    getitem Samples.tidy "officetype" = Series types ∧
    generate_summary_stats 0 Samples.tidy_loaded =
      (Ok (),
       mkState (heap Samples.tidy_loaded) (files Samples.tidy_loaded)
         (console Samples.tidy_loaded ++
          [ [Text (nl ++ "=== BASIC SUMMARY ===")];
            [Text "Total Entries After Cleaning:";
             Int (length (rows Samples.tidy))];
            [Text "Unique States:"; Int n_states];
            [Text "Unique Districts:"; Int n_districts];
            [Text "Unique Office Types:"; Values office_types] ])) ∧
    distinct_count states n_states ∧
    distinct_count districts n_districts ∧
    NoDup office_types ∧
    (∀ v, v ∈ office_types ↔ v ∈ types).
Proof.
  apply (summary_prints_the_figures_in_order 0 Samples.tidy_loaded
           Samples.tidy).
  - vm_compute. reflexivity.
  - apply Forall_forall. compute_done.
Defined.

(** The sample table, worked out. *)
Example summary_of_tidy :
  console (generate_summary_stats 0 Samples.tidy_loaded).2 =
    [ [Text (nl ++ "=== BASIC SUMMARY ===")];
      [Text "Total Entries After Cleaning:"; Int 4];
      [Text "Unique States:"; Int 2];
      [Text "Unique Districts:"; Int 3];
      [Text "Unique Office Types:"; Values [Str "HO"; Str "BO"; Str "SO"]] ].
Proof. vm_compute. reflexivity. Qed.

(** A name repeated among the columns the summary does not read leaves
    it as it is. *)
Example summary_with_a_repeated_region :
  (∀ name, name ∈ summary_columns →
           count name (columns Samples.two_region_columns) = 1) ∧
  ¬ NoDup (columns Samples.two_region_columns) ∧
  generate_summary_stats 0 (mkState {[ 0 := Samples.two_region_columns ]} ∅ [])
  = (Ok (),
     mkState {[ 0 := Samples.two_region_columns ]} ∅
       [ [Text (nl ++ "=== BASIC SUMMARY ===")];
         [Text "Total Entries After Cleaning:"; Int 2];
         [Text "Unique States:"; Int 2];
         [Text "Unique Districts:"; Int 2];
         [Text "Unique Office Types:"; Values [Str "HO"; Str "BO"]] ]).
Proof.
  split; [apply Forall_forall; compute_done|].
  split; [compute_done|vm_compute; reflexivity].
Qed.

(** A repeated [statename] does not stop the summary, but what it then
    prints for the states is not a count: [nunique] on the frame that
    [df['statename']] selects gives one count for each of its columns. *)
Example summary_with_a_repeated_state :
  generate_summary_stats 0 (mkState {[ 0 := Samples.two_state_columns ]} ∅ [])
  = (Ok (),
     mkState {[ 0 := Samples.two_state_columns ]} ∅
       [ [Text (nl ++ "=== BASIC SUMMARY ===")];
         [Text "Total Entries After Cleaning:"; Int 2];
         [Text "Unique States:";
          Counts [("statename", 2); ("statename", 1)]];
         [Text "Unique Districts:"; Int 2];
         [Text "Unique Office Types:"; Values [Str "HO"; Str "BO"]] ]).
Proof. vm_compute. reflexivity. Qed.

(** C6, as stated, fails on a cleaned table in which two columns are
    named [officetype]: headers that differ only in case or spacing
    collide once normalized, [df['officetype']] is then a frame, and the
    summary stops on the [AttributeError] that [unique] raises on it, the
    office types unprinted. *)
Lemma summary_stops_on_a_repeated_name :
  (load_and_clean_data file_path
     (boot (Samples.on_disk Samples.two_type_columns))).1 = Ok (Some 0) ∧
  heap (load_and_clean_data file_path
          (boot (Samples.on_disk Samples.two_type_columns))).2 !! 0
    = Some (cleaned_of Samples.two_type_columns) ∧
  (generate_summary_stats 0
     (load_and_clean_data file_path
        (boot (Samples.on_disk Samples.two_type_columns))).2).1
    = Raise (Raised AttributeError
               "'DataFrame' object has no attribute 'unique'") ∧
  console
    (generate_summary_stats 0
       (load_and_clean_data file_path
          (boot (Samples.on_disk Samples.two_type_columns))).2).2
    = [ [Text (nl ++ "=== BASIC SUMMARY ===")];
        [Text "Total Entries After Cleaning:"; Int 2];
        [Text "Unique States:"; Int 2];
        [Text "Unique Districts:"; Int 2] ].
Proof. repeat split; vm_compute; reflexivity. Qed.

(** ** Frequency counts and the ten most frequent states *)

Global Instance more_frequent_trans : Transitive more_frequent.
Proof. intros a b c. unfold more_frequent. lia. Qed.

Global Instance more_frequent_total : Total more_frequent.
Proof. intros a b. unfold more_frequent. lia. Qed.

Lemma StronglySorted_lookup_lt {A} (R : relation A) (l : list A) i j a b :
  StronglySorted R l → i < j → l !! i = Some a → l !! j = Some b → R a b.
Proof.
  intros Hs. revert i j. induction Hs as [|x l Hl IH Hx]; intros i j Hij Hi Hj.
  - done.
  - destruct j as [|j]; [lia|]. destruct i as [|i]; simpl in *.
    + injection Hi as <-. rewrite Forall_forall in Hx.
      apply Hx. by eapply list_elem_of_lookup_2.
    + apply (IH i j); [lia|done..].
Qed.

Section value_counts.
Implicit Types (col : list cell) (v : cell) (n : nat).

Lemma insert_by_count_Permutation x l : insert_by_count x l ≡ₚ x :: l.
Proof.
  induction l as [|y l IH]; simpl; [done|].
  destruct (decide (more_frequent x y)); [done|].
  rewrite IH. apply Permutation_swap.
Qed.

Lemma sort_by_count_Permutation l : sort_by_count l ≡ₚ l.
Proof.
  induction l as [|x l IH]; simpl; [done|].
  by rewrite insert_by_count_Permutation, IH.
Qed.

Lemma insert_by_count_sorted x l :
  StronglySorted more_frequent l →
  StronglySorted more_frequent (insert_by_count x l).
Proof.
  induction 1 as [|y l Hl IH Hy]; simpl.
  - by repeat constructor.
  - destruct (decide (more_frequent x y)) as [Hxy|Hxy].
    + constructor; [by constructor|].
      constructor; [done|].
      eapply Forall_impl; [exact Hy|].
      intros z Hz. by transitivity y.
    + constructor; [done|].
      rewrite insert_by_count_Permutation.
      constructor; [|done].
      destruct (total more_frequent x y); done.
Qed.

Lemma sort_by_count_sorted l : StronglySorted more_frequent (sort_by_count l).
Proof.
  induction l as [|x l IH]; simpl; [constructor|].
  by apply insert_by_count_sorted.
Qed.

Lemma value_counts_Permutation col :
  value_counts col ≡ₚ (λ v, (v, count v col)) <$> first_occurrences (notna col).
Proof. apply sort_by_count_Permutation. Qed.

Lemma value_counts_sorted col : StronglySorted more_frequent (value_counts col).
Proof. apply sort_by_count_sorted. Qed.

Lemma elem_of_value_counts col v n :
  (v, n) ∈ value_counts col ↔ v ∈ col ∧ v ≠ NaN ∧ n = count v col.
Proof.
  rewrite value_counts_Permutation, list_elem_of_fmap.
  setoid_rewrite elem_of_first_occurrences.
  unfold notna. setoid_rewrite list_elem_of_filter.
  split.
  - intros (w & [= -> ->] & Hw & Hin). done.
  - intros (Hin & Hv & ->). exists v. done.
Qed.

Lemma value_counts_keys col :
  fst <$> value_counts col ≡ₚ first_occurrences (notna col).
Proof.
  transitivity (id <$> first_occurrences (notna col));
    [|by rewrite list_fmap_id].
  rewrite value_counts_Permutation, <- list_fmap_compose. reflexivity.
Qed.

Lemma value_counts_counts col :
  snd <$> value_counts col ≡ₚ counts_of_distinct col.
Proof.
  rewrite value_counts_Permutation, <- list_fmap_compose. done.
Qed.

Lemma NoDup_value_counts_keys col : NoDup (fst <$> value_counts col).
Proof. rewrite value_counts_keys. apply NoDup_first_occurrences. Qed.

Lemma length_value_counts col : length (value_counts col) = nunique col.
Proof.
  unfold nunique.
  by rewrite (Permutation_length (value_counts_Permutation col)), length_fmap.
Qed.
End value_counts.

(** Values with the same count keep the order of their first
    appearance. *)
Lemma insert_by_count_ties x l n :
  filter (λ p : cell * nat, p.2 = n) (insert_by_count x l)
  = filter (λ p : cell * nat, p.2 = n) (x :: l).
Proof.
  induction l as [|y l IH]; simpl; [done|].
  destruct (decide (more_frequent x y)) as [Hxy|Hxy]; [done|].
  rewrite filter_cons, IH, !(filter_cons _ x), (filter_cons _ y).
  unfold more_frequent in Hxy.
  destruct (decide (x.2 = n)) as [Hx|Hx];
    destruct (decide (y.2 = n)) as [Hy|Hy]; try done.
  lia.
Qed.

Lemma sort_by_count_ties l n :
  filter (λ p : cell * nat, p.2 = n) (sort_by_count l)
  = filter (λ p : cell * nat, p.2 = n) l.
Proof.
  induction l as [|x l IH]; [done|]. simpl.
  by rewrite insert_by_count_ties, !filter_cons, IH.
Qed.

Lemma value_counts_ties col n :
  filter (λ p : cell * nat, p.2 = n) (value_counts col)
  = (λ v, (v, n)) <$>
      filter (λ v, count v col = n) (first_occurrences (notna col)).
Proof.
  unfold value_counts. rewrite sort_by_count_ties.
  induction (first_occurrences (notna col)) as [|v l IH]; [done|].
  rewrite fmap_cons, !filter_cons, IH. simpl.
  destruct (decide (count v col = n)) as [->|]; done.
Qed.

(** Three office types, two of them seen once: the one seen first comes
    first. *)
Example office_types_of_tidy :
  value_counts (column Samples.tidy "officetype")
  = [ (Str "BO", 2); (Str "HO", 1); (Str "SO", 1) ].
Proof. vm_compute. reflexivity. Qed.

(** Fifteen states seen once each: the ten seen first are kept. *)
Example top10_of_fifteen_tied :
  head 10 (value_counts (Str <$> Samples.fifteen_names))
  = (λ name, (Str name, 1)) <$> take 10 Samples.fifteen_names.
Proof. vm_compute. reflexivity. Qed.

(** C7. When the table has at least ten distinct states and no two states
    have the same number of rows, the bars of the fourth chart are ten
    states, each labelled with its exact number of rows, in strictly
    decreasing order of that number, and every state left out has fewer
    rows than every state shown. *)
Theorem top10_states_are_the_ten_largest render t states :
  getitem t "statename" = Series states →
  10 ≤ nunique states →
  NoDup (counts_of_distinct states) →
  ∃ top,
    visualization_4 render t =
      savefig render "top10_states_postoffices.png"
        (BarLabelled top (snd <$> top)) ∧
    length top = 10 ∧
    NoDup (fst <$> top) ∧
    (∀ v n, (v, n) ∈ top → v ∈ states ∧ n = count v states) ∧
    (∀ i j a b, i < j → top !! i = Some a → top !! j = Some b →
                snd b < snd a) ∧
    (∀ v, v ∈ states → v ≠ NaN → v ∉ fst <$> top →
          ∀ w n, (w, n) ∈ top → count v states < n).
Proof.
  intros Hsel Hten Hdistinct.
  rewrite <- value_counts_counts in Hdistinct.
  rewrite <- length_value_counts in Hten.
  pose proof (value_counts_sorted states) as Hsorted.
  pose proof (NoDup_value_counts_keys states) as Hkeys.
  pose proof (elem_of_value_counts states) as Hmem.
  set (vc := value_counts states) in *.
  exists (head 10 vc). unfold head.
  rewrite <- (take_drop 10 vc) in Hsorted, Hkeys, Hdistinct.
  rewrite fmap_app in Hkeys. rewrite fmap_app in Hdistinct.
  apply NoDup_app in Hkeys as (Hkeys & _ & _).
  apply NoDup_app in Hdistinct as (Hd1 & Hd2 & _).
  split; [|split; [|split; [|split; [|split]]]].
  - unfold visualization_4, column_value_counts, grouping_key.
    rewrite Hsel. reflexivity.
  - rewrite length_take. lia.
  - exact Hkeys.
  - intros v n Hin. apply elem_of_take in Hin as (i & Hi & _).
    apply list_elem_of_lookup_2, Hmem in Hi. naive_solver.
  - intros i j a b Hij Hi Hj.
    apply StronglySorted_app_1_l in Hsorted.
    assert (more_frequent a b) as Hle.
    { by eapply (StronglySorted_lookup_lt _ _ i j). }
    unfold more_frequent in Hle.
    assert (snd a ≠ snd b); [|lia].
    intros Heq.
    assert (i = j); [|lia].
    eapply (NoDup_lookup _ i j (snd a) Hd1).
    + by rewrite list_lookup_fmap, Hi.
    + by rewrite list_lookup_fmap, Hj, Heq.
  - intros v Hv Hna Hout w n Hw.
    assert ((v, count v states) ∈ drop 10 vc) as Hdrop.
    { assert ((v, count v states) ∈ (take 10 vc ++ drop 10 vc)%list) as Hin.
      { rewrite take_drop. apply Hmem. done. }
      apply elem_of_app in Hin as [Hin|Hin]; [|done].
      exfalso. apply Hout.
      apply list_elem_of_fmap. exists (v, count v states). done. }
    pose proof (StronglySorted_app_1_elem_of _ _ _ _ _ Hsorted Hw Hdrop) as Hle.
    unfold more_frequent in Hle. simpl in Hle.
    assert (n ≠ count v states); [|lia].
    intros ->. eapply (Hd2 (count v states)); apply list_elem_of_fmap.
    + exists (w, count v states). done.
    + exists (v, count v states). done.
Qed.

Lemma top10_states_are_the_ten_largest_witness :
  ∃ top,
    visualization_4 Samples.no_render Samples.fifteen_states =
      savefig Samples.no_render "top10_states_postoffices.png"
        (BarLabelled top (snd <$> top)) ∧
    length top = 10 ∧
    NoDup (fst <$> top) ∧
    (∀ v n, (v, n) ∈ top →
            v ∈ column_at Samples.fifteen_states 0 ∧
            n = count v (column_at Samples.fifteen_states 0)) ∧
    (∀ i j a b, i < j → top !! i = Some a → top !! j = Some b →
                snd b < snd a) ∧
    (∀ v, v ∈ column_at Samples.fifteen_states 0 → v ≠ NaN →
          v ∉ fst <$> top →
          ∀ w n, (w, n) ∈ top →
                 count v (column_at Samples.fifteen_states 0) < n).
Proof.
  apply (top10_states_are_the_ten_largest Samples.no_render
           Samples.fifteen_states (column_at Samples.fifteen_states 0)).
  - vm_compute. reflexivity.
  - compute_done.
  - compute_done.
Defined.

(** The sample of fifteen states, worked out: the ten largest, largest
    first, each with its number of offices. *)
Example top10_of_fifteen_states :
  head 10 (value_counts (column_at Samples.fifteen_states 0)) =
    [ (Str "Bihar", 15); (Str "Karnataka", 14); (Str "Gujarat", 13);
      (Str "Kerala", 12); (Str "Odisha", 11); (Str "Assam", 10);
      (Str "Punjab", 9); (Str "Haryana", 8); (Str "Meghalaya", 7);
      (Str "Nagaland", 6) ].
Proof. vm_compute. reflexivity. Qed.

(** ** Computations that neither read the files nor touch the heap *)

Section tame.
Context {A : Type}.
Implicit Types (N : gset string) (m : run A).

Lemma tame_mono N N' m : N ⊆ N' → tame N m → tame N' m.
Proof.
  intros HN Hm h c. destruct (Hm h c) as (o & W & c' & Hdom & Heq).
  exists o, W, c'. split; [set_solver|done].
Qed.

Lemma tame_ret N (a : A) : tame N (mret a).
Proof.
  intros h c. exists (Ok a), ∅, c. split; [set_solver|].
  intros fs. unfold mret, run_ret. by rewrite (left_id_L ∅ (∪)).
Qed.

Lemma tame_raise N e : tame N (raise e : run A).
Proof.
  intros h c. exists (Raise e), ∅, c. split; [set_solver|].
  intros fs. unfold raise. by rewrite (left_id_L ∅ (∪)).
Qed.

Lemma tame_heap N m s : tame N m → heap (m s).2 = heap s.
Proof.
  intros Hm. destruct s as [h fs c].
  destruct (Hm h c) as (o & W & c' & _ & Heq). by rewrite Heq.
Qed.

Lemma tame_other_files N m s name :
  tame N m → name ∉ N → files (m s).2 !! name = files s !! name.
Proof.
  intros Hm Hname. destruct s as [h fs c].
  destruct (Hm h c) as (o & W & c' & Hdom & Heq). rewrite Heq. simpl.
  apply lookup_union_r, not_elem_of_dom. set_solver.
Qed.
End tame.

Lemma tame_bind {A B} N (m : run A) (k : A → run B) :
  tame N m → (∀ a, tame N (k a)) → tame N (m ≫= k).
Proof.
  intros Hm Hk h c. destruct (Hm h c) as (o & W & c' & Hdom & Heq).
  destruct o as [a|e].
  - destruct (Hk a h c') as (o2 & W2 & c2 & Hdom2 & Heq2).
    exists o2, (W2 ∪ W), c2. split; [rewrite dom_union_L; set_solver|].
    intros fs. unfold mbind, run_bind. rewrite Heq, Heq2.
    by rewrite (assoc_L (∪)).
  - exists (Raise e), W, c'. split; [done|].
    intros fs. unfold mbind, run_bind. by rewrite Heq.
Qed.

Lemma tame_print N line : tame N (print line).
Proof.
  intros h c. exists (Ok ()), ∅, (c ++ [line])%list. split; [set_solver|].
  intros fs. unfold print. simpl. by rewrite (left_id_L ∅ (∪)).
Qed.

Lemma tame_deref N r : tame N (deref r).
Proof.
  intros h c. destruct (h !! r) as [t|] eqn:Hr.
  - exists (Ok t), ∅, c. split; [set_solver|].
    intros fs. unfold deref. simpl. by rewrite Hr, (left_id_L ∅ (∪)).
  - eexists (Raise _), ∅, c. split; [set_solver|].
    intros fs. unfold deref. simpl. by rewrite Hr, (left_id_L ∅ (∪)).
Qed.

Lemma tame_write_file N name f : name ∈ N → tame N (write_file name f).
Proof.
  intros Hname h c. exists (Ok ()), {[ name := f ]}, c.
  split; [rewrite dom_singleton_L; set_solver|].
  intros fs. unfold write_file. simpl. by rewrite insert_union_singleton_l.
Qed.

Lemma tame_savefig render N name c : name ∈ N → tame N (savefig render name c).
Proof.
  intros Hname. unfold savefig.
  destruct (render name c); [apply tame_raise|by apply tame_write_file].
Qed.

Lemma tame_grouping_key N t name : tame N (grouping_key t name).
Proof.
  unfold grouping_key.
  destruct (getitem t name); auto using tame_ret, tame_raise.
Qed.

Lemma tame_column_value_counts N t name : tame N (column_value_counts t name).
Proof.
  unfold column_value_counts.
  apply tame_bind; [apply tame_grouping_key|intros; apply tame_ret].
Qed.

Lemma tame_column_nunique N t name : tame N (column_nunique t name).
Proof.
  unfold column_nunique.
  destruct (getitem t name); auto using tame_ret, tame_raise.
Qed.

Lemma tame_column_unique N t name : tame N (column_unique t name).
Proof.
  unfold column_unique.
  destruct (getitem t name); auto using tame_ret, tame_raise.
Qed.

Create HintDb tame.
Global Hint Resolve tame_ret tame_raise tame_print tame_deref
  tame_grouping_key tame_column_value_counts tame_column_nunique
  tame_column_unique : tame.

Ltac tame_steps :=
  repeat first
    [ apply tame_bind; [|intros ?]
    | solve [auto with tame]
    | apply tame_savefig; compute_done
    | apply tame_write_file; compute_done ].

(** The summary writes no file at all. *)
Lemma tame_generate_summary_stats df : tame ∅ (generate_summary_stats df).
Proof. unfold generate_summary_stats. tame_steps. Qed.

(** The visualizer writes the five images and nothing else. *)
Lemma tame_create_visualizations render df :
  tame image_files (create_visualizations render df).
Proof.
  unfold create_visualizations, visualization_1, visualization_2,
    visualization_3, visualization_4, visualization_5.
  tame_steps.
Qed.

Lemma tame_to_excel export t :
  tame {[ export_file ]} (to_excel export t export_file).
Proof.
  unfold to_excel.
  destruct (export export_file t); [apply tame_raise|].
  apply tame_write_file. set_solver.
Qed.

(** ** The whole run *)

Lemma main_after_banner render export s :
  main render export s =
    match load_and_clean_data file_path (after_banner s) with
    | (Ok (Some df), s1) => after_load render export df s1
    | (Ok None, s1) =>
        print [Text "Failed to process data. Please check the input file and try again."] s1
    | (Raise e, s1) => (Raise e, s1)
    end.
Proof.
  unfold main, mbind, run_bind, print, after_banner. simpl.
  destruct (load_and_clean_data _ _) as [[[r|]|e] s1]; reflexivity.
Qed.

Lemma not_an_image : export_file ∉ image_files.
Proof. compute_done. Qed.

Lemma tame_after_load render export df :
  tame (image_files ∪ {[ export_file ]}) (after_load render export df).
Proof.
  unfold after_load.
  apply tame_bind;
    [eapply tame_mono, tame_generate_summary_stats; set_solver|intros _].
  apply tame_bind; [apply tame_print|intros _].
  apply tame_bind;
    [eapply tame_mono, tame_create_visualizations; set_solver|intros _].
  apply tame_bind; [apply tame_deref|intros t].
  apply tame_bind;
    [eapply tame_mono, tame_to_excel; set_solver|intros _].
  apply tame_bind; [apply tame_print|intros _]. apply tame_print.
Qed.

(** A tame step that cannot write the exported file may come first. *)
Lemma exports_after_tame {A B} N t r (m : run A) (k : A → run B) :
  tame N m → export_file ∉ N → (∀ a, exports t r (k a)) →
  exports t r (m ≫= k).
Proof.
  intros Hm HN Hk s Hr. unfold mbind, run_bind.
  pose proof (tame_heap N m s Hm) as Hheap.
  pose proof (tame_other_files N m s export_file Hm HN) as Hfile.
  destruct (m s) as [[a|e] s1]; simpl in *; [|done].
  specialize (Hk a s1). rewrite Hheap in Hk. specialize (Hk Hr).
  destruct (k a s1) as [[b|e] s2]; [done|]. by rewrite Hk.
Qed.

Lemma exports_after_load render export t r :
  exports t r (after_load render export r).
Proof.
  unfold after_load.
  eapply exports_after_tame;
    [apply tame_generate_summary_stats|set_solver|intros _].
  eapply exports_after_tame; [apply (tame_print ∅)|set_solver|intros _].
  eapply exports_after_tame;
    [apply tame_create_visualizations|apply not_an_image|intros _].
  intros s Hr. unfold mbind, run_bind, deref. rewrite Hr.
  unfold to_excel.
  destruct (export _ t); [done|].
  unfold write_file, print. simpl.
  apply lookup_insert_eq.
Qed.

(** C8. Once the loader has returned the cleaned table, no later stage
    changes it: the summary, the visualizer and the export each leave the
    heap as they found it, the reference still points to the same table
    when the run ends, and a run that ends normally has written exactly
    that table as the exported workbook (a run cut short by an exception
    has left the exported file alone). *)
Theorem downstream_stages_leave_the_table_unchanged render export s t' :
  returned_table (load_and_clean_data file_path (after_banner s)) = Some t' →
  ∃ r s1,
    load_and_clean_data file_path (after_banner s) = (Ok (Some r), s1) ∧
    heap s1 !! r = Some t' ∧
    (∀ s2, heap (generate_summary_stats r s2).2 = heap s2) ∧
    (∀ s2, heap (create_visualizations render r s2).2 = heap s2) ∧
    (∀ s2, heap (to_excel export t' export_file s2).2 = heap s2) ∧
    heap (main render export s).2 !! r = Some t' ∧
    match (main render export s).1 with
    | Ok _ =>
        files (main render export s).2 !! export_file = Some (Workbook t')
    | Raise _ =>
        files (main render export s).2 !! export_file = files s !! export_file
    end.
Proof.
  intros Hret. rewrite main_after_banner.
  destruct (load_and_clean_data file_path (after_banner s))
    as [[[r|]|e] s1] eqn:Hload; try done.
  simpl in Hret. exists r, s1.
  split; [done|]. split; [done|].
  split; [intros s2; apply (tame_heap _ _ _ (tame_generate_summary_stats r))|].
  split; [intros s2; apply (tame_heap _ _ _ (tame_create_visualizations render r))|].
  split; [intros s2; apply (tame_heap _ _ _ (tame_to_excel export t'))|].
  split.
  - by rewrite (tame_heap _ _ _ (tame_after_load render export r)).
  - pose proof (exports_after_load render export t' r s1 Hret) as Hexp.
    assert (files s1 = files s) as Hfiles.
    { pose proof (loader_files file_path (after_banner s)) as Hl.
      by rewrite Hload in Hl. }
    destruct (after_load render export r s1) as [[[]|e] s2]; simpl; [done|].
    by rewrite Hexp, Hfiles.
Qed.

Lemma downstream_stages_leave_the_table_unchanged_witness :
  ∃ r s1,
    load_and_clean_data file_path (after_banner Samples.offices_booted)
      = (Ok (Some r), s1) ∧
    heap s1 !! r = Some (cleaned_of Samples.offices) ∧
    (∀ s2, heap (generate_summary_stats r s2).2 = heap s2) ∧
    (∀ s2, heap (create_visualizations Samples.no_render r s2).2 = heap s2) ∧
    (∀ s2, heap (to_excel Samples.no_refusal (cleaned_of Samples.offices)
                   export_file s2).2
           = heap s2) ∧
    heap (main Samples.no_render Samples.no_refusal Samples.offices_booted).2 !! r
      = Some (cleaned_of Samples.offices) ∧
    match (main Samples.no_render Samples.no_refusal Samples.offices_booted).1 with
    | Ok _ =>
        files (main Samples.no_render Samples.no_refusal Samples.offices_booted).2 !! export_file
        = Some (Workbook (cleaned_of Samples.offices))
    | Raise _ =>
        files (main Samples.no_render Samples.no_refusal Samples.offices_booted).2 !! export_file
        = files Samples.offices_booted !! export_file
    end.
Proof.
  apply (downstream_stages_leave_the_table_unchanged Samples.no_render
           Samples.no_refusal Samples.offices_booted (cleaned_of Samples.offices)).
  vm_compute. reflexivity.
Defined.

(** The run looks at one file only, the workbook at [file_path]: given
    what that path holds, the way the run ends, the lines it prints and
    the files it lays over the file system are determined. *)
Lemma main_reads_only_the_input render export h c (x : option file) :
  ∃ o h' (W : gmap string file) c',
    dom W ⊆ image_files ∪ {[ export_file ]} ∧
    ∀ fs, fs !! file_path = x →
          main render export (mkState h fs c) = (o, mkState h' (W ∪ fs) c').
Proof.
  set (c1 := (c ++ [[Text "Loading and cleaning data..."]])%list).
  assert (∀ fs, after_banner (mkState h fs c) = mkState h fs c1) as Hb by done.
  destruct x as [[t| |]|].
  - destruct (loader_refusal t) as [e|] eqn:Hm.
    + eexists (Ok ()), h, ∅, _. split; [set_solver|]. intros fs Hfs.
      rewrite main_after_banner, Hb, (load_workbook _ _ t) by done.
      rewrite Hm. unfold print. simpl. by rewrite (left_id_L ∅ (∪)).
    + set (r := fresh (dom h)).
      destruct (tame_after_load render export r (<[r := cleaned_of t]> h) c1)
        as (o & W & c' & Hdom & Heq).
      exists o, (<[r := cleaned_of t]> h), W, c'. split; [done|].
      intros fs Hfs.
      rewrite main_after_banner, Hb, (load_workbook _ _ t) by done.
      rewrite Hm. simpl. apply Heq.
  - eexists (Ok ()), h, ∅, _. split; [set_solver|]. intros fs Hfs.
    rewrite main_after_banner, Hb, load_no_workbook
      by (simpl; intros t; congruence).
    unfold print. simpl. rewrite Hfs. by rewrite (left_id_L ∅ (∪)).
  - eexists (Ok ()), h, ∅, _. split; [set_solver|]. intros fs Hfs.
    rewrite main_after_banner, Hb, load_no_workbook
      by (simpl; intros t; congruence).
    unfold print. simpl. rewrite Hfs. by rewrite (left_id_L ∅ (∪)).
  - eexists (Ok ()), h, ∅, _. split; [set_solver|]. intros fs Hfs.
    rewrite main_after_banner, Hb, load_no_workbook
      by (simpl; intros t; congruence).
    unfold print. simpl. rewrite Hfs. by rewrite (left_id_L ∅ (∪)).
Qed.

(** C9. Two runs on file systems that hold the same thing at the input
    path end the same way, print the same lines (so the same counts in
    the summary) and write the same files with the same contents (so the
    same exported workbook, row for row). *)
Theorem two_runs_on_the_same_input_agree render export fs fs' :
  fs !! file_path = fs' !! file_path →
  (main render export (boot fs)).1 = (main render export (boot fs')).1 ∧
  console (main render export (boot fs)).2 = console (main render export (boot fs')).2 ∧
  ∃ W : gmap string file,
    dom W ⊆ image_files ∪ {[ export_file ]} ∧
    files (main render export (boot fs)).2 = W ∪ fs ∧
    files (main render export (boot fs')).2 = W ∪ fs' ∧
    ∀ name, name ∈ dom W →
      files (main render export (boot fs)).2 !! name
      = files (main render export (boot fs')).2 !! name.
Proof.
  intros Hsame.
  destruct (main_reads_only_the_input render export ∅ [] (fs !! file_path))
    as (o & h' & W & c' & Hdom & Hrun).
  unfold boot. rewrite (Hrun fs eq_refl), (Hrun fs' (eq_sym Hsame)). simpl.
  split; [done|]. split; [done|]. exists W.
  split; [done|]. split; [done|]. split; [done|].
  intros name Hname. apply elem_of_dom in Hname as [f Hf].
  by rewrite !(lookup_union_Some_l _ _ _ _ Hf).
Qed.

Lemma two_runs_on_the_same_input_agree_witness :
  (main Samples.no_render Samples.no_refusal (boot Samples.offices_disk)).1
  = (main Samples.no_render Samples.no_refusal (boot Samples.offices_disk_stale)).1 ∧
  console (main Samples.no_render Samples.no_refusal (boot Samples.offices_disk)).2
  = console (main Samples.no_render Samples.no_refusal (boot Samples.offices_disk_stale)).2 ∧
  ∃ W : gmap string file,
    dom W ⊆ image_files ∪ {[ export_file ]} ∧
    files (main Samples.no_render Samples.no_refusal (boot Samples.offices_disk)).2
    = W ∪ Samples.offices_disk ∧
    files (main Samples.no_render Samples.no_refusal (boot Samples.offices_disk_stale)).2
    = W ∪ Samples.offices_disk_stale ∧
    ∀ name, name ∈ dom W →
      files (main Samples.no_render Samples.no_refusal (boot Samples.offices_disk)).2 !! name
      = files (main Samples.no_render Samples.no_refusal (boot Samples.offices_disk_stale)).2
          !! name.
Proof.
  apply (two_runs_on_the_same_input_agree Samples.no_render
           Samples.no_refusal Samples.offices_disk Samples.offices_disk_stale).
  vm_compute. reflexivity.
Defined.

Lemma input_is_no_output : file_path ∉ image_files ∪ {[ export_file ]}.
Proof. compute_done. Qed.

(** X19. Running the script again on the files the first run left gives
    the first run's result over again: same ending, same lines, and a
    file system left exactly as the first run left it. *)
Lemma second_run_reproduces_the_first render export fs :
  main render export (boot (files (main render export (boot fs)).2))
  = main render export (boot fs).
Proof.
  destruct (main_reads_only_the_input render export ∅ [] (fs !! file_path))
    as (o & h' & W & c' & Hdom & Hrun).
  unfold boot. rewrite (Hrun fs eq_refl). simpl.
  rewrite (Hrun (W ∪ fs)).
  - by rewrite (assoc_L (∪)), (idemp_L (∪)).
  - apply lookup_union_r, not_elem_of_dom.
    pose proof input_is_no_output. set_solver.
Qed.

(** * Further properties of the script *)

(** ** More facts about [strip] and first occurrences *)

Lemma lstrip_fixed s : no_leading_space s → lstrip s = s.
Proof.
  destruct s as [|c s]; [done|]. intros H. simpl.
  by rewrite (H c eq_refl).
Qed.

Lemma rstrip_fixed s : no_trailing_space s → rstrip s = s.
Proof.
  induction s as [|c s IH]; [done|]. intros H. simpl.
  destruct s as [|d s].
  - simpl. by rewrite (H c eq_refl).
  - rewrite IH; [done|]. intros x Hx. apply H. exact Hx.
Qed.

Lemma strip_fixed s : no_leading_space s → no_trailing_space s → strip s = s.
Proof.
  intros Hl Ht. unfold strip. rewrite (lstrip_fixed s Hl). by apply rstrip_fixed.
Qed.

Lemma strip_idempotent s : strip (strip s) = strip s.
Proof.
  apply strip_fixed; [apply strip_no_leading_space|apply strip_no_trailing_space].
Qed.

Lemma strip_if_str_idempotent c : strip_if_str (strip_if_str c) = strip_if_str c.
Proof. destruct c; simpl; [|done..]. by rewrite strip_idempotent. Qed.

Lemma normalised_label_fixed name :
  lower (strip (lower (strip name))) = lower (strip name).
Proof.
  rewrite (strip_fixed (lower (strip name))).
  - apply lower_idempotent.
  - apply lower_no_leading_space, strip_no_leading_space.
  - apply lower_no_trailing_space, strip_no_trailing_space.
Qed.

Lemma strip_if_str_not_missing c : strip_if_str c = NaN ↔ c = NaN.
Proof. by destruct c. Qed.

Lemma fmap_fixed {A} (f : A → A) (l : list A) :
  (∀ x, x ∈ l → f x = x) → f <$> l = l.
Proof.
  induction l as [|x l IH]; intros H; [done|]. simpl.
  rewrite (H x) by left. f_equal. apply IH. intros y Hy. apply H. by right.
Qed.

Lemma filter_fixed {A} (P : A → Prop) `{∀ x, Decision (P x)} (l : list A) :
  (∀ x, x ∈ l → P x) → filter P l = l.
Proof.
  induction l as [|x l IH]; intros Hl; [done|].
  rewrite filter_cons_True by (apply Hl; left).
  f_equal. apply IH. intros y Hy. apply Hl. by right.
Qed.

Lemma filter_none {A} (P : A → Prop) `{∀ x, Decision (P x)} (l : list A) :
  (∀ x, x ∈ l → ¬ P x) → filter P l = [].
Proof.
  induction l as [|x l IH]; intros Hl; [done|].
  rewrite filter_cons_False by (apply Hl; left).
  apply IH. intros y Hy. apply Hl. by right.
Qed.

Lemma first_seen_fixed {A} `{EqDecision A} (seen l : list A) :
  NoDup l → (∀ x, x ∈ l → x ∉ seen) → first_seen seen l = l.
Proof.
  revert seen. induction l as [|y l IH]; intros seen Hnd Hseen; simpl.
  - reflexivity.
  - inversion Hnd as [|? ? Hy Hl]; subst.
    destruct (decide (y ∈ seen)) as [Hin|_].
    + exfalso. apply (Hseen y); [left|done].
    + f_equal. apply IH; [done|].
      intros x Hx. rewrite elem_of_cons. intros [->|Hs]; [done|].
      apply (Hseen x); [by right|done].
Qed.

Lemma first_occurrences_fixed {A} `{EqDecision A} (l : list A) :
  NoDup l → first_occurrences l = l.
Proof. intros Hnd. apply first_seen_fixed; [done|]. intros x _. apply not_elem_of_nil. Qed.

(** ** The loader: what it accepts and what it rejects *)

Lemma elem_of_normalised_labels t col :
  col ∈ str_lower (str_strip (columns t)) ↔
  ∃ h, h ∈ columns t ∧ lower (strip h) = col.
Proof.
  unfold str_lower, str_strip. rewrite <- list_fmap_compose, list_elem_of_fmap.
  naive_solver.
Qed.

(** X1. The loader returns a table exactly when the path holds a workbook
    in which every required name is the stripped, lowercased form of some
    header: headers are matched whatever their case and the blanks around
    them. *)
Theorem loader_returns_a_table_iff path s :
  is_Some (returned_table (load_and_clean_data path s)) ↔
  ∃ t, files s !! path = Some (Workbook t) ∧
       ∀ col, col ∈ required_columns →
              ∃ h, h ∈ columns t ∧ lower (strip h) = col.
Proof.
  split.
  - intros [t' Hret]. apply returned_table_inv in Hret as (t & Hf & -> & Hm).
    exists t. split; [done|]. intros col Hcol.
    apply elem_of_normalised_labels. rewrite <- columns_cleaned_of.
    by apply (proj1 (first_missing_None _ _) Hm).
  - intros (t & Hf & Hall). rewrite (returned_table_workbook _ _ _ Hf).
    assert (first_missing required_columns (columns (cleaned_of t)) = None) as ->; [|done].
    apply first_missing_None. intros col Hcol.
    rewrite columns_cleaned_of. apply elem_of_normalised_labels. auto.
Qed.

(** X2. On a sheet that has a header, when several required columns are
    absent, the diagnostic names the first of them in the order
    statename, district, officetype, regionname, delivery: the loop stops
    at the first absent name. *)
Theorem diagnostic_names_the_first_absent_column path s t before col after :
  files s !! path = Some (Workbook t) →
  columns t ≠ [] →
  required_columns = (before ++ col :: after)%list →
  (∀ c, c ∈ before → c ∈ str_lower (str_strip (columns t))) →
  col ∉ str_lower (str_strip (columns t)) →
  load_and_clean_data path s =
    (Ok None,
     mkState (heap s) (files s)
       (console s ++ [diagnostic (missing_column col)])).
Proof.
  intros Hf Hcols Hsplit Hbefore Hcol. rewrite (load_workbook _ _ _ Hf).
  rewrite loader_refusal_with_header by done. rewrite Hsplit.
  assert (first_missing (before ++ col :: after)
            (str_lower (str_strip (columns t))) = Some col) as ->; [|done].
  clear Hsplit. induction before as [|b before IH]; simpl.
  - by rewrite decide_False.
  - rewrite decide_True by (apply Hbefore; left).
    apply IH. intros c Hc. apply Hbefore. by right.
Qed.

Lemma diagnostic_names_the_first_absent_column_witness :
  load_and_clean_data file_path
    (boot (Samples.on_disk Samples.offices_without_two)) =
    (Ok None,
     mkState (heap (boot (Samples.on_disk Samples.offices_without_two)))
       (files (boot (Samples.on_disk Samples.offices_without_two)))
       (console (boot (Samples.on_disk Samples.offices_without_two))
        ++ [diagnostic (missing_column "district")])).
Proof.
  apply (diagnostic_names_the_first_absent_column file_path
           (boot (Samples.on_disk Samples.offices_without_two))
           Samples.offices_without_two
           ["statename"] "district" ["officetype"; "regionname"; "delivery"]).
  - vm_compute. reflexivity.
  - discriminate.
  - reflexivity.
  - apply Forall_forall. compute_done.
  - compute_done.
Defined.

(** X3. When the input path holds no workbook (no file at all, or a file
    that is not a spreadsheet), the run prints its first line, the
    diagnostic of the exception [read_excel] raised and the failure
    message, ends normally and writes nothing; for a missing file the
    exception is [FileNotFoundError]. *)
Theorem unreadable_input_stops_the_run render export s :
  (∀ t, files s !! file_path ≠ Some (Workbook t)) →
  ∃ e,
    is_Exception e = true ∧
    (files s !! file_path = None → e = Raised FileNotFoundError file_path) ∧
    load_and_clean_data file_path s =
      (Ok None,
       mkState (heap s) (files s) (console s ++ [diagnostic e])) ∧
    main render export s =
      (Ok (),
       mkState (heap s) (files s)
         (console s ++
          [ [Text "Loading and cleaning data..."];
            diagnostic e;
            [Text "Failed to process data. Please check the input file and try again."] ])).
Proof.
  intros Hf. exists (read_failure file_path (files s !! file_path)).
  split; [by destruct (files s !! file_path) as [[| |]|]|].
  split; [by intros ->|].
  split; [by apply load_no_workbook|].
  rewrite main_after_banner, load_no_workbook by done.
  unfold print, after_banner. simpl. by rewrite <- !app_assoc.
Qed.

Lemma unreadable_input_stops_the_run_witness :
  ∃ e,
    is_Exception e = true ∧
    (files (boot ∅) !! file_path = None →
     e = Raised FileNotFoundError file_path) ∧
    load_and_clean_data file_path (boot ∅) =
      (Ok None,
       mkState (heap (boot ∅)) (files (boot ∅))
         (console (boot ∅) ++ [diagnostic e])) ∧
    main Samples.no_render Samples.no_refusal (boot ∅) =
      (Ok (),
       mkState (heap (boot ∅)) (files (boot ∅))
         (console (boot ∅) ++
          [ [Text "Loading and cleaning data..."];
            diagnostic e;
            [Text "Failed to process data. Please check the input file and try again."] ])).
Proof.
  apply (unreadable_input_stops_the_run Samples.no_render Samples.no_refusal
           (boot ∅)).
  intros t. vm_compute. discriminate.
Defined.

(** X4. Whatever it is given, the loader writes no file, leaves every
    object already on the heap as it is, and prints nothing or exactly
    one line. *)
Theorem loader_touches_nothing_else path s :
  files (load_and_clean_data path s).2 = files s ∧
  (∀ r t, heap s !! r = Some t →
          heap (load_and_clean_data path s).2 !! r = Some t) ∧
  (console (load_and_clean_data path s).2 = console s ∨
   ∃ line, console (load_and_clean_data path s).2 = (console s ++ [line])%list).
Proof.
  split; [apply loader_files|].
  destruct (files s !! path) as [[t| |]|] eqn:Hf.
  - rewrite (load_workbook _ _ _ Hf).
    destruct (loader_refusal t); simpl.
    + split; [done|]. right. eauto.
    + split; [|by left]. intros r t0 Hr.
      rewrite lookup_insert_ne; [done|].
      intros <-. apply (is_fresh (dom (heap s))).
      apply elem_of_dom. eauto.
  - rewrite load_no_workbook by (intros t; congruence). simpl.
    split; [done|]. right. eauto.
  - rewrite load_no_workbook by (intros t; congruence). simpl.
    split; [done|]. right. eauto.
  - rewrite load_no_workbook by (intros t; congruence). simpl.
    split; [done|]. right. eauto.
Qed.

(** ** The cleaned table: what always holds of it *)

Lemma kept_rows_not_missing t row :
  row ∈ first_occurrences (filter (λ r, NaN ∉ r) (rows t)) →
  row ∈ rows t ∧ NaN ∉ row.
Proof.
  rewrite elem_of_first_occurrences, list_elem_of_filter. naive_solver.
Qed.

Lemma cleaned_rows_not_missing t row : row ∈ rows (cleaned_of t) → NaN ∉ row.
Proof.
  rewrite rows_cleaned_of. intros Hrow.
  apply list_elem_of_fmap in Hrow as (src & -> & Hsrc).
  apply kept_rows_not_missing in Hsrc as [_ Hna]. intros Hin.
  apply list_elem_of_fmap in Hin as (c & Hc & Hcin).
  symmetry in Hc. apply strip_if_str_not_missing in Hc as ->. done.
Qed.

Lemma cleaned_rows_trimmed t row c :
  row ∈ rows (cleaned_of t) → c ∈ row → strip_if_str c = c.
Proof.
  rewrite rows_cleaned_of. intros Hrow Hc.
  apply list_elem_of_fmap in Hrow as (src & -> & _).
  apply list_elem_of_fmap in Hc as (c0 & -> & _).
  apply strip_if_str_idempotent.
Qed.

(** X5. The table the loader returns has no missing cell, has the five
    required columns, has as many columns as the workbook and no more rows
    than it; and if every row of the workbook has the same width, so has
    every row of the table. *)
Theorem cleaned_table_invariants path s t t' :
  files s !! path = Some (Workbook t) →
  returned_table (load_and_clean_data path s) = Some t' →
  (∀ row, row ∈ rows t' → NaN ∉ row) ∧
  (∀ col, col ∈ required_columns → col ∈ columns t') ∧
  length (columns t') = length (columns t) ∧
  length (rows t') ≤ length (rows t) ∧
  (∀ w, Forall (λ row, length row = w) (rows t) →
        Forall (λ row, length row = w) (rows t')).
Proof.
  intros Hf Hret. apply returned_table_inv in Hret as (t0 & Hf0 & -> & Hm).
  assert (t0 = t) as -> by congruence. clear Hf0.
  split; [intros row; apply cleaned_rows_not_missing|].
  split; [by apply first_missing_None|].
  split.
  { rewrite columns_cleaned_of. unfold str_lower, str_strip.
    by rewrite !length_fmap. }
  split.
  { rewrite rows_cleaned_of, length_fmap.
    etrans; [apply sublist_length, first_occurrences_sublist|].
    apply length_filter. }
  intros w Hw. rewrite rows_cleaned_of. rewrite Forall_forall in Hw.
  apply Forall_forall. intros row Hrow.
  apply list_elem_of_fmap in Hrow as (src & -> & Hsrc).
  apply kept_rows_not_missing in Hsrc as [Hsrc _].
  rewrite length_fmap. by apply Hw.
Qed.

Lemma cleaned_table_invariants_witness :
  (∀ row, row ∈ rows (cleaned_of Samples.offices) → NaN ∉ row) ∧
  (∀ col, col ∈ required_columns → col ∈ columns (cleaned_of Samples.offices)) ∧
  length (columns (cleaned_of Samples.offices))
    = length (columns Samples.offices) ∧
  length (rows (cleaned_of Samples.offices)) ≤ length (rows Samples.offices) ∧
  (∀ w, Forall (λ row, length row = w) (rows Samples.offices) →
        Forall (λ row, length row = w) (rows (cleaned_of Samples.offices))).
Proof.
  apply (cleaned_table_invariants file_path
           (boot (Samples.on_disk Samples.offices))).
  - vm_compute. reflexivity.
  - vm_compute. reflexivity.
Defined.

(** X6. When no text cell of the workbook has a blank at either end, the
    table the loader returns has no two equal rows. *)
Theorem trimmed_input_gives_distinct_rows path s t t' :
  files s !! path = Some (Workbook t) →
  returned_table (load_and_clean_data path s) = Some t' →
  (∀ row x, row ∈ rows t → Str x ∈ row →
            no_leading_space x ∧ no_trailing_space x) →
  NoDup (rows t').
Proof.
  intros Hf Hret Htrim. apply returned_table_inv in Hret as (t0 & Hf0 & -> & _).
  assert (t0 = t) as -> by congruence. clear Hf0.
  rewrite rows_cleaned_of, fmap_fixed; [apply NoDup_first_occurrences|].
  intros row Hrow. apply kept_rows_not_missing in Hrow as [Hrow _].
  apply fmap_fixed. intros c Hc. destruct c as [x| |]; [|done..]. simpl.
  destruct (Htrim row x Hrow Hc). by rewrite strip_fixed.
Qed.

Lemma trimmed_input_gives_distinct_rows_witness :
  NoDup (rows (cleaned_of Samples.neat)).
Proof.
  apply (trimmed_input_gives_distinct_rows file_path
           (boot (Samples.on_disk Samples.neat)) Samples.neat).
  - vm_compute. reflexivity.
  - vm_compute. reflexivity.
  - intros row x Hrow Hx.
    assert (strip x = x) as <-.
    { revert row x Hrow Hx.
      assert (Forall (λ row, Forall (λ c, strip_if_str c = c) row)
                (rows Samples.neat)) as Hall by compute_done.
      intros row x Hrow Hx. rewrite Forall_forall in Hall.
      specialize (Hall row Hrow). rewrite Forall_forall in Hall.
      specialize (Hall (Str x) Hx). simpl in Hall. congruence. }
    split; [apply strip_no_leading_space|apply strip_no_trailing_space].
Defined.

(** X7. A workbook without an empty cell or a repeated row loses no row:
    the table the loader returns holds its rows, in order, text cells
    stripped. *)
Theorem clean_input_keeps_every_row path s t t' :
  files s !! path = Some (Workbook t) →
  returned_table (load_and_clean_data path s) = Some t' →
  (∀ row, row ∈ rows t → NaN ∉ row) →
  NoDup (rows t) →
  rows t' = (λ r : list cell, strip_if_str <$> r) <$> rows t ∧
  length (rows t') = length (rows t).
Proof.
  intros Hf Hret Hna Hnd. apply returned_table_inv in Hret as (t0 & Hf0 & -> & _).
  assert (t0 = t) as -> by congruence. clear Hf0.
  rewrite rows_cleaned_of, (filter_fixed _ (rows t)) by done.
  rewrite first_occurrences_fixed by done.
  split; [done|]. by rewrite length_fmap.
Qed.

Lemma clean_input_keeps_every_row_witness :
  rows (cleaned_of Samples.spotless)
    = (λ r : list cell, strip_if_str <$> r) <$> rows Samples.spotless ∧
  length (rows (cleaned_of Samples.spotless)) = length (rows Samples.spotless).
Proof.
  apply (clean_input_keeps_every_row file_path
           (boot (Samples.on_disk Samples.spotless)) Samples.spotless).
  - vm_compute. reflexivity.
  - vm_compute. reflexivity.
  - apply Forall_forall. compute_done.
  - compute_done.
Defined.

Lemma frame_eq (a b : DataFrame) :
  columns a = columns b → rows a = rows b → a = b.
Proof. destruct a, b. simpl. by intros -> ->. Qed.

(** X8. Cleaning is not idempotent, but it settles after one more pass:
    cleaning a cleaned table keeps its names and cells and only drops the
    rows that trimming had made equal, and cleaning the result again
    changes nothing. *)
Theorem recleaning_settles_after_one_more_pass t :
  columns (cleaned_of (cleaned_of t)) = columns (cleaned_of t) ∧
  rows (cleaned_of (cleaned_of t)) = first_occurrences (rows (cleaned_of t)) ∧
  NoDup (rows (cleaned_of (cleaned_of t))) ∧
  cleaned_of (cleaned_of (cleaned_of t)) = cleaned_of (cleaned_of t).
Proof.
  assert (∀ u, columns (cleaned_of (cleaned_of u)) = columns (cleaned_of u))
    as Hcols.
  { intros u. rewrite !columns_cleaned_of. unfold str_lower, str_strip.
    rewrite <- !list_fmap_compose. apply list_fmap_ext.
    intros _ name _. simpl. apply normalised_label_fixed. }
  assert (∀ u, rows (cleaned_of (cleaned_of u))
               = first_occurrences (rows (cleaned_of u))) as Hrows.
  { intros u. rewrite (rows_cleaned_of (cleaned_of u)).
    rewrite (filter_fixed _ (rows (cleaned_of u)))
      by (intros row; apply cleaned_rows_not_missing).
    apply fmap_fixed. intros row Hrow.
    rewrite elem_of_first_occurrences in Hrow.
    apply fmap_fixed. intros c Hc. exact (cleaned_rows_trimmed u row c Hrow Hc). }
  split; [apply Hcols|]. split; [apply Hrows|].
  split; [rewrite Hrows; apply NoDup_first_occurrences|].
  apply frame_eq; [apply Hcols|].
  rewrite (Hrows (cleaned_of t)), (Hrows t).
  apply first_occurrences_fixed, NoDup_first_occurrences.
Qed.

(** The sample sheet, worked out: the first cleaning leaves two equal
    rows, the second drops one of them. *)
Example recleaning_offices :
  length (rows (cleaned_of Samples.offices)) = 3 ∧
  length (rows (cleaned_of (cleaned_of Samples.offices))) = 2.
Proof. split; vm_compute; reflexivity. Qed.

(** ** The summary: absent columns, bounds on the figures *)

Lemma getitem_missing t name : name ∉ columns t → getitem t name = Missing.
Proof.
  intros Hname. unfold getitem, positions.
  rewrite filter_none; [done|].
  intros i _ Hi. apply Hname. by eapply list_elem_of_lookup_2.
Qed.

(** What the summary does when the three names select series. *)
Lemma summary_on_series df s t states districts types :
  heap s !! df = Some t →
  getitem t "statename" = Series states →
  getitem t "district" = Series districts →
  getitem t "officetype" = Series types →
  generate_summary_stats df s =
    (Ok (),
     mkState (heap s) (files s)
       (console s ++
        [ [Text (nl ++ "=== BASIC SUMMARY ===")];
          [Text "Total Entries After Cleaning:"; Int (length (rows t))];
          [Text "Unique States:"; Int (nunique states)];
          [Text "Unique Districts:"; Int (nunique districts)];
          [Text "Unique Office Types:"; Values (unique types)] ])).
Proof.
  intros Hdf Hs Hd Ht.
  unfold generate_summary_stats, mbind, run_bind, deref.
  rewrite Hdf. unfold column_nunique, column_unique.
  rewrite Hs, Hd, Ht. unfold print, mret, run_ret, len. simpl.
  by rewrite <- !app_assoc.
Qed.

(** When a label is present, [nunique] on the selection does not raise. *)
Lemma column_nunique_present t name :
  name ∈ columns t → ∃ it, column_nunique t name = mret it.
Proof.
  intros Hin. apply getitem_present in Hin. unfold column_nunique.
  destruct (getitem t name); [eauto..|done].
Qed.

(** X9. Called on a table that lacks one of [statename], [district],
    [officetype], the summary raises [KeyError] for the first of them that
    is absent, after the heading, the total and one line for each column
    read before it; it writes no file. *)
Theorem summary_raises_on_an_absent_column df s t before name after :
  heap s !! df = Some t →
  summary_columns = (before ++ name :: after)%list →
  (∀ c, c ∈ before → c ∈ columns t) →
  name ∉ columns t →
  (generate_summary_stats df s).1 = Raise (Raised KeyError name) ∧
  files (generate_summary_stats df s).2 = files s ∧
  length (console (generate_summary_stats df s).2)
    = length (console s) + 2 + length before.
Proof.
  intros Hdf Hsplit Hbefore Hname.
  pose proof (getitem_missing t name Hname) as Hmiss.
  unfold generate_summary_stats, mbind, run_bind, deref. rewrite Hdf.
  unfold summary_columns in *.
  destruct before as [|b1 [|b2 [|b3 before]]]; simpl in Hsplit.
  - injection Hsplit as <- _. unfold column_nunique. rewrite Hmiss. simpl.
    rewrite !length_app. simpl. split; [done|]. split; [done|lia].
  - injection Hsplit as <- <- _.
    destruct (column_nunique_present t "statename") as [i ->];
      [apply Hbefore; left|].
    unfold column_nunique. rewrite Hmiss. simpl.
    rewrite !length_app. simpl. split; [done|]. split; [done|lia].
  - injection Hsplit as <- <- <- _.
    destruct (column_nunique_present t "statename") as [i ->];
      [apply Hbefore; left|].
    destruct (column_nunique_present t "district") as [j ->];
      [apply Hbefore; right; left|].
    unfold column_unique. rewrite Hmiss. simpl.
    rewrite !length_app. simpl. split; [done|]. split; [done|lia].
  - injection Hsplit as _ _ _ Hrest. by destruct before.
Qed.

Lemma summary_raises_on_an_absent_column_witness :
  (generate_summary_stats 0
     (mkState {[ 0 := Samples.offices_without_two ]} ∅ [])).1
    = Raise (Raised KeyError "statename") ∧
  files (generate_summary_stats 0
           (mkState {[ 0 := Samples.offices_without_two ]} ∅ [])).2
    = files (mkState {[ 0 := Samples.offices_without_two ]} ∅ []) ∧
  length (console (generate_summary_stats 0
                     (mkState {[ 0 := Samples.offices_without_two ]} ∅ [])).2)
    = length (console (mkState {[ 0 := Samples.offices_without_two ]} ∅ []))
      + 2 + length (@nil string).
Proof.
  apply (summary_raises_on_an_absent_column 0
           (mkState {[ 0 := Samples.offices_without_two ]} ∅ [])
           Samples.offices_without_two [] "statename"
           ["district"; "officetype"]).
  - vm_compute. reflexivity.
  - reflexivity.
  - apply Forall_forall. compute_done.
  - compute_done.
Defined.

Lemma length_column_at t i : length (column_at t i) = length (rows t).
Proof. unfold column_at. by rewrite length_fmap. Qed.

Lemma nunique_le_length col : nunique col ≤ length col.
Proof.
  unfold nunique, notna.
  etrans; [apply sublist_length, first_occurrences_sublist|].
  apply length_filter.
Qed.

Lemma nunique_positive col : col ≠ [] → NaN ∉ col → 1 ≤ nunique col.
Proof.
  intros Hne Hna. destruct col as [|c col]; [done|].
  unfold nunique.
  assert (c ∈ first_occurrences (notna (c :: col))) as Hin.
  { apply elem_of_first_occurrences, list_elem_of_filter.
    split; [|left]. intros ->. apply Hna. left. }
  destruct (first_occurrences _); [inversion Hin|simpl; lia].
Qed.

(** In a rectangular table without a missing cell, no column holds one. *)
Lemma column_at_not_missing t i :
  rectangular t → (∀ row, row ∈ rows t → NaN ∉ row) →
  i < length (columns t) → NaN ∉ column_at t i.
Proof.
  unfold rectangular, column_at. rewrite Forall_forall.
  intros Hrect Hna Hi Hin.
  apply list_elem_of_fmap in Hin as (row & Hc & Hrow).
  destruct (lookup_lt_is_Some_2 row i) as [c Hlook].
  { rewrite (Hrect row Hrow). done. }
  rewrite Hlook in Hc. simpl in Hc. subst c.
  apply (Hna row Hrow). by eapply list_elem_of_lookup_2.
Qed.

Lemma cleaned_of_rectangular t : rectangular t → rectangular (cleaned_of t).
Proof.
  unfold rectangular. rewrite !Forall_forall. intros Hrect row Hrow.
  rewrite rows_cleaned_of in Hrow.
  apply list_elem_of_fmap in Hrow as (src & -> & Hsrc).
  apply kept_rows_not_missing in Hsrc as [Hsrc _].
  rewrite length_fmap, (Hrect src Hsrc), columns_cleaned_of.
  unfold str_lower, str_strip. by rewrite !length_fmap.
Qed.

(** X10. On the table the loader returned from a rectangular workbook
    (its column names distinct), the summary ends normally, and none of
    the numbers of distinct states, districts and office types it prints
    exceeds the total it prints; when the table has a row, each of them is
    at least one; no missing value is listed among the office types. *)
Theorem summary_figures_are_bounded path s t t' df s2 :
  files s !! path = Some (Workbook t) →
  rectangular t →
  returned_table (load_and_clean_data path s) = Some t' →
  NoDup (columns t') →
  heap s2 !! df = Some t' →
  ∃ n_states n_districts office_types,
    generate_summary_stats df s2 =
      (Ok (),
       mkState (heap s2) (files s2)
         (console s2 ++
          [ [Text (nl ++ "=== BASIC SUMMARY ===")];
            [Text "Total Entries After Cleaning:"; Int (length (rows t'))];
            [Text "Unique States:"; Int n_states];
            [Text "Unique Districts:"; Int n_districts];
            [Text "Unique Office Types:"; Values office_types] ])) ∧
    n_states ≤ length (rows t') ∧
    n_districts ≤ length (rows t') ∧
    length office_types ≤ length (rows t') ∧
    (rows t' ≠ [] →
     1 ≤ n_states ∧ 1 ≤ n_districts ∧ 1 ≤ length office_types) ∧
    NaN ∉ office_types.
Proof.
  intros Hf Hrect Hret Hnd Hdf.
  apply returned_table_inv in Hret as (t0 & Hf0 & -> & Hm).
  assert (t0 = t) as -> by congruence. clear Hf0.
  pose proof (proj1 (first_missing_None _ _) Hm) as Hreq.
  pose proof (cleaned_of_rectangular t Hrect) as Hrect'.
  pose proof (cleaned_rows_not_missing t) as Hna.
  set (u := cleaned_of t) in *.
  destruct (getitem_series u "statename" Hnd) as (i1 & Hi1 & Hs);
    [apply Hreq; compute_done|].
  destruct (getitem_series u "district" Hnd) as (i2 & Hi2 & Hd);
    [apply Hreq; compute_done|].
  destruct (getitem_series u "officetype" Hnd) as (i3 & Hi3 & Ht).
  { apply Hreq; compute_done. }
  apply lookup_lt_Some in Hi1, Hi2, Hi3.
  pose proof (column_at_not_missing u i1 Hrect' Hna Hi1) as Hn1.
  pose proof (column_at_not_missing u i2 Hrect' Hna Hi2) as Hn2.
  pose proof (column_at_not_missing u i3 Hrect' Hna Hi3) as Hn3.
  exists (nunique (column_at u i1)), (nunique (column_at u i2)),
    (unique (column_at u i3)).
  split; [by apply summary_on_series|].
  assert (unique (column_at u i3) = first_occurrences (notna (column_at u i3)))
    as Huniq.
  { unfold unique, notna. rewrite filter_fixed; [done|].
    intros c Hc ->. done. }
  assert (length (unique (column_at u i3)) = nunique (column_at u i3)) as Hlen
    by (by rewrite Huniq).
  rewrite Hlen.
  pose proof (nunique_le_length (column_at u i1)) as H1.
  pose proof (nunique_le_length (column_at u i2)) as H2.
  pose proof (nunique_le_length (column_at u i3)) as H3.
  rewrite length_column_at in H1, H2, H3.
  split; [done|]. split; [done|]. split; [done|]. split.
  - intros Hrows.
    assert (∀ i, column_at u i ≠ []) as Hcol.
    { intros i Hnil. apply Hrows. apply length_zero_iff_nil.
      by rewrite <- (length_column_at u i), Hnil. }
    split; [|split]; by apply nunique_positive.
  - unfold unique. by rewrite elem_of_first_occurrences.
Qed.

Lemma summary_figures_are_bounded_witness :
  ∃ n_states n_districts office_types,
    generate_summary_stats 0
      (load_and_clean_data file_path Samples.offices_booted).2 =
      (Ok (),
       mkState (heap (load_and_clean_data file_path Samples.offices_booted).2)
         (files (load_and_clean_data file_path Samples.offices_booted).2)
         (console (load_and_clean_data file_path Samples.offices_booted).2 ++
          [ [Text (nl ++ "=== BASIC SUMMARY ===")];
            [Text "Total Entries After Cleaning:";
             Int (length (rows (cleaned_of Samples.offices)))];
            [Text "Unique States:"; Int n_states];
            [Text "Unique Districts:"; Int n_districts];
            [Text "Unique Office Types:"; Values office_types] ])) ∧
    n_states ≤ length (rows (cleaned_of Samples.offices)) ∧
    n_districts ≤ length (rows (cleaned_of Samples.offices)) ∧
    length office_types ≤ length (rows (cleaned_of Samples.offices)) ∧
    (rows (cleaned_of Samples.offices) ≠ [] →
     1 ≤ n_states ∧ 1 ≤ n_districts ∧ 1 ≤ length office_types) ∧
    NaN ∉ office_types.
Proof.
  apply (summary_figures_are_bounded file_path Samples.offices_booted
           Samples.offices (cleaned_of Samples.offices) 0
           (load_and_clean_data file_path Samples.offices_booted).2).
  - vm_compute. reflexivity.
  - compute_done.
  - vm_compute. reflexivity.
  - compute_done.
  - vm_compute. reflexivity.
Defined.

(** ** The aggregates behind the charts *)

Lemma count_cons {A} `{EqDecision A} (x y : A) (l : list A) :
  count x (y :: l) = (if decide (y = x) then 1 else 0) + count x l.
Proof.
  unfold count. rewrite filter_cons. by destruct (decide (y = x)).
Qed.

Lemma count_filter {A} `{EqDecision A} (P : A → Prop) `{∀ x, Decision (P x)}
    (x : A) (l : list A) :
  P x → count x (filter P l) = count x l.
Proof.
  intros Hx. induction l as [|y l IH]; [done|].
  rewrite filter_cons. destruct (decide (P y)) as [Hy|Hy].
  - by rewrite !count_cons, IH.
  - rewrite count_cons, IH. destruct (decide (y = x)) as [->|]; done.
Qed.

Lemma count_zero_iff {A} `{EqDecision A} (x : A) (l : list A) :
  count x l = 0 ↔ x ∉ l.
Proof.
  induction l as [|y l IH]; [split; [intros _; apply not_elem_of_nil|done]|].
  rewrite count_cons, not_elem_of_cons.
  destruct (decide (y = x)) as [->|Hne].
  - split; [done|]. intros [Hx _]. done.
  - simpl. rewrite IH. naive_solver.
Qed.

Lemma sum_list_fmap_cons {A} (f : A → nat) (x : A) (l : list A) :
  sum_list (f <$> (x :: l)) = f x + sum_list (f <$> l).
Proof. reflexivity. Qed.

Lemma sum_indicator_absent {A} `{EqDecision A} (y : A) (d : list A) :
  y ∉ d → sum_list ((λ x, if decide (y = x) then 1 else 0) <$> d) = 0.
Proof.
  induction d as [|z d IH]; intros Hy; [done|].
  rewrite not_elem_of_cons in Hy. destruct Hy as [Hz Hy].
  rewrite sum_list_fmap_cons, decide_False by done. by rewrite IH.
Qed.

(** Over a list without repetition that holds [y], exactly one entry is
    [y]. *)
Lemma sum_indicator {A} `{EqDecision A} (y : A) (d : list A) :
  NoDup d → y ∈ d →
  sum_list ((λ x, if decide (y = x) then 1 else 0) <$> d) = 1.
Proof.
  induction 1 as [|x d Hx Hd IH]; intros Hy; [inversion Hy|].
  rewrite sum_list_fmap_cons. destruct (decide (y = x)) as [->|Hne].
  - by rewrite sum_indicator_absent.
  - rewrite IH; [done|]. apply elem_of_cons in Hy as [|]; done.
Qed.

Lemma sum_counts {A} `{EqDecision A} (l d : list A) :
  NoDup d → (∀ x, x ∈ l → x ∈ d) →
  sum_list ((λ x, count x l) <$> d) = length l.
Proof.
  intros Hnd. induction l as [|y l IH]; intros Hl.
  - clear Hl Hnd. induction d as [|x d IHd]; [done|].
    by rewrite sum_list_fmap_cons, IHd.
  - transitivity
      (sum_list ((λ x, if decide (y = x) then 1 else 0) <$> d)
       + sum_list ((λ x, count x l) <$> d)).
    + clear IH Hl Hnd. induction d as [|x d IHd]; [done|].
      rewrite !sum_list_fmap_cons, IHd, count_cons. lia.
    + rewrite sum_indicator, IH; [done| |done|].
      * intros x Hx. apply Hl. by right.
      * apply Hl. left.
Qed.

Lemma value_counts_sum col :
  sum_list (snd <$> value_counts col) = length (notna col).
Proof.
  rewrite value_counts_counts. unfold counts_of_distinct.
  rewrite <- (sum_counts (notna col) (first_occurrences (notna col))).
  - f_equal. apply list_fmap_ext. intros i v Hv. simpl.
    symmetry. apply (count_filter (λ c, c ≠ NaN)).
    apply list_elem_of_lookup_2 in Hv.
    rewrite elem_of_first_occurrences in Hv.
    unfold notna in Hv. rewrite list_elem_of_filter in Hv. tauto.
  - apply NoDup_first_occurrences.
  - intros x. by rewrite elem_of_first_occurrences.
Qed.

Lemma value_counts_frequency_table col : frequency_table col (value_counts col).
Proof.
  split; [apply NoDup_value_counts_keys|].
  split; [apply elem_of_value_counts|].
  split; [|apply value_counts_sum].
  intros i j a b Hij Hi Hj.
  apply (StronglySorted_lookup_lt more_frequent (value_counts col) i j a b);
    [apply value_counts_sorted|done..].
Qed.

(** X11. The first two charts are frequency tables of the region and
    office-type columns: one bar for each distinct value, its length the
    exact number of rows with that value, bars by decreasing length, and
    the lengths adding up to the number of rows that have a value. *)
Theorem frequency_charts_count_every_row render t regions types :
  getitem t "regionname" = Series regions →
  getitem t "officetype" = Series types →
  ∃ region_bars type_bars,
    visualization_1 render t =
      savefig render "region_wise_postoffices.png" (BarH region_bars) ∧
    visualization_2 render t =
      savefig render "postoffice_types.png" (Bar type_bars) ∧
    frequency_table regions region_bars ∧
    frequency_table types type_bars.
Proof.
  intros Hr Ht. exists (value_counts regions), (value_counts types).
  split; [|split; [|split; apply value_counts_frequency_table]].
  - unfold visualization_1, column_value_counts, grouping_key.
    rewrite Hr. reflexivity.
  - unfold visualization_2, column_value_counts, grouping_key.
    rewrite Ht. reflexivity.
Qed.

Lemma frequency_charts_count_every_row_witness :
  ∃ region_bars type_bars,
    visualization_1 Samples.no_render Samples.tidy =
      savefig Samples.no_render "region_wise_postoffices.png"
        (BarH region_bars) ∧
    visualization_2 Samples.no_render Samples.tidy =
      savefig Samples.no_render "postoffice_types.png" (Bar type_bars) ∧
    frequency_table (column_at Samples.tidy 3) region_bars ∧
    frequency_table (column_at Samples.tidy 2) type_bars.
Proof.
  apply (frequency_charts_count_every_row Samples.no_render Samples.tidy
           (column_at Samples.tidy 3) (column_at Samples.tidy 2)).
  - vm_compute. reflexivity.
  - vm_compute. reflexivity.
Defined.

Lemma head_value_counts_most_frequent k col :
  most_frequent k col (head k (value_counts col)).
Proof.
  pose proof (value_counts_sorted col) as Hsorted.
  pose proof (NoDup_value_counts_keys col) as Hkeys.
  pose proof (elem_of_value_counts col) as Hmem.
  pose proof (length_value_counts col) as Hlen.
  set (vc := value_counts col) in *. unfold head.
  rewrite <- (take_drop k vc) in Hsorted, Hkeys.
  rewrite fmap_app in Hkeys. apply NoDup_app in Hkeys as (Hkeys & _ & _).
  split; [rewrite length_take; lia|].
  split; [done|]. split.
  { intros v n Hin. apply elem_of_take in Hin as (i & Hi & _).
    by apply list_elem_of_lookup_2, Hmem in Hi. }
  split.
  { intros i j a b Hij Hi Hj. apply StronglySorted_app_1_l in Hsorted.
    by apply (StronglySorted_lookup_lt more_frequent (take k vc) i j a b). }
  split.
  { intros v Hv Hna Hout w n Hw.
    assert ((v, count v col) ∈ drop k vc) as Hdrop.
    { assert ((v, count v col) ∈ (take k vc ++ drop k vc)%list) as Hin.
      { rewrite take_drop. apply Hmem. done. }
      apply elem_of_app in Hin as [Hin|Hin]; [|done].
      exfalso. apply Hout.
      apply list_elem_of_fmap. exists (v, count v col). done. }
    apply (StronglySorted_app_1_elem_of _ _ _ _ _ Hsorted Hw Hdrop). }
  intros Hfew v Hv Hna. rewrite take_ge by lia.
  apply list_elem_of_fmap. exists (v, count v col). split; [done|].
  apply Hmem. done.
Qed.

(** X12. The fourth and fifth charts show the ten most frequent states
    and districts, or all of them when there are fewer than ten: exact
    counts, by decreasing count, ties included, and nothing left out
    occurs more often than something shown; the labels of the fourth
    chart are the counts of its bars. *)
Theorem top_charts_show_the_most_frequent render t states districts :
  getitem t "statename" = Series states →
  getitem t "district" = Series districts →
  ∃ top_states top_districts,
    visualization_4 render t =
      savefig render "top10_states_postoffices.png"
        (BarLabelled top_states (snd <$> top_states)) ∧
    visualization_5 render t =
      savefig render "top10_districts_heatmap.png" (Heatmap top_districts) ∧
    most_frequent 10 states top_states ∧
    most_frequent 10 districts top_districts.
Proof.
  intros Hs Hd.
  exists (head 10 (value_counts states)), (head 10 (value_counts districts)).
  split; [|split; [|split; apply head_value_counts_most_frequent]].
  - unfold visualization_4, column_value_counts, grouping_key.
    rewrite Hs. reflexivity.
  - unfold visualization_5, column_value_counts, grouping_key.
    rewrite Hd. reflexivity.
Qed.

Lemma top_charts_show_the_most_frequent_witness :
  ∃ top_states top_districts,
    visualization_4 Samples.no_render Samples.tidy =
      savefig Samples.no_render "top10_states_postoffices.png"
        (BarLabelled top_states (snd <$> top_states)) ∧
    visualization_5 Samples.no_render Samples.tidy =
      savefig Samples.no_render "top10_districts_heatmap.png"
        (Heatmap top_districts) ∧
    most_frequent 10 (column_at Samples.tidy 0) top_states ∧
    most_frequent 10 (column_at Samples.tidy 1) top_districts.
Proof.
  apply (top_charts_show_the_most_frequent Samples.no_render Samples.tidy
           (column_at Samples.tidy 0) (column_at Samples.tidy 1)).
  - vm_compute. reflexivity.
  - vm_compute. reflexivity.
Defined.

Global Instance cell_le_total : Total cell_le.
Proof.
  intros [x|x|] [y|y|]; simpl; try tauto; [apply String.leb_total|lia].
Qed.

(** X13. The third chart is the cross table of the state and delivery
    columns: one bar for each distinct state and one segment for each
    distinct delivery category, both in sorted order, the height of a
    segment being the exact number of rows with that state and that
    category, zero for a combination that never occurs. *)
Theorem stacked_chart_is_the_cross_table render t states deliveries :
  getitem t "statename" = Series states →
  getitem t "delivery" = Series deliveries →
  ∃ index cols heights,
    visualization_3 render t =
      savefig render "delivery_vs_non_delivery.png"
        (StackedBar index cols heights) ∧
    cross_table states deliveries index cols heights.
Proof.
  intros Hs Hd.
  set (present := λ p : cell * cell, p.1 ≠ NaN ∧ p.2 ≠ NaN).
  set (pairs := filter present (zip states deliveries)).
  exists (merge_sort cell_le (first_occurrences (fst <$> pairs))),
    (merge_sort cell_le (first_occurrences (snd <$> pairs))),
    ((λ s, (λ d, count (s, d) pairs)
             <$> merge_sort cell_le (first_occurrences (snd <$> pairs)))
       <$> merge_sort cell_le (first_occurrences (fst <$> pairs))).
  split.
  { unfold visualization_3, grouping_key. rewrite Hs, Hd. reflexivity. }
  assert (∀ v d, (v, d) ∈ pairs ↔
                 v ≠ NaN ∧ d ≠ NaN ∧ (v, d) ∈ zip states deliveries) as Hpairs.
  { intros v d. unfold pairs, present. rewrite list_elem_of_filter. simpl.
    tauto. }
  unfold cross_table.
  split; [rewrite merge_sort_Permutation; apply NoDup_first_occurrences|].
  split; [rewrite merge_sort_Permutation; apply NoDup_first_occurrences|].
  split; [apply Sorted_merge_sort; apply _|].
  split; [apply Sorted_merge_sort; apply _|].
  split.
  { intros v. rewrite merge_sort_Permutation, elem_of_first_occurrences,
      list_elem_of_fmap. split.
    - intros ([v' d] & -> & Hin). apply Hpairs in Hin. simpl. naive_solver.
    - intros (Hv & d & Hd' & Hin). exists (v, d). split; [done|].
      apply Hpairs. done. }
  split.
  { intros d. rewrite merge_sort_Permutation, elem_of_first_occurrences,
      list_elem_of_fmap. split.
    - intros ([v d'] & -> & Hin). apply Hpairs in Hin. simpl. naive_solver.
    - intros (Hd' & v & Hv & Hin). exists (v, d). split; [done|].
      apply Hpairs. done. }
  split; [by rewrite length_fmap|].
  split.
  { apply Forall_forall. intros row Hrow.
    apply list_elem_of_fmap in Hrow as (s & -> & _). by rewrite length_fmap. }
  intros i j v d Hi Hj.
  assert (v ≠ NaN ∧ d ≠ NaN) as [Hv Hd'].
  { apply list_elem_of_lookup_2 in Hi, Hj.
    rewrite merge_sort_Permutation, elem_of_first_occurrences,
      list_elem_of_fmap in Hi, Hj.
    destruct Hi as ([v1 d1] & -> & Hin1). destruct Hj as ([v2 d2] & -> & Hin2).
    apply Hpairs in Hin1, Hin2. simpl. tauto. }
  eexists _, _. rewrite list_lookup_fmap, Hi. simpl.
  split; [done|]. rewrite list_lookup_fmap, Hj. simpl.
  split; [done|].
  assert (count (v, d) pairs = count (v, d) (zip states deliveries)) as ->.
  { apply (count_filter present). done. }
  split; [done|]. apply count_zero_iff.
Qed.

Lemma stacked_chart_is_the_cross_table_witness :
  ∃ index cols heights,
    visualization_3 Samples.no_render Samples.tidy =
      savefig Samples.no_render "delivery_vs_non_delivery.png"
        (StackedBar index cols heights) ∧
    cross_table (column_at Samples.tidy 0) (column_at Samples.tidy 4)
      index cols heights.
Proof.
  apply (stacked_chart_is_the_cross_table Samples.no_render Samples.tidy
           (column_at Samples.tidy 0) (column_at Samples.tidy 4)).
  - vm_compute. reflexivity.
  - vm_compute. reflexivity.
Defined.

(** The sample table, worked out: Kerala has one office of each kind. *)
Example stacked_chart_of_tidy :
  delivery_counts (column_at Samples.tidy 0) (column_at Samples.tidy 4) =
    StackedBar [Str "Goa"; Str "Kerala"]
      [Str "Delivery"; Str "Non-Delivery"] [[2; 0]; [1; 1]].
Proof. vm_compute. reflexivity. Qed.

(** ** The visualizer: what it writes, and where it stops *)













(** ** The whole run: success, failure after the loader, files touched *)

Section silent.
Context {A : Type}.

Lemma silent_ret (a : A) : silent (mret a).
Proof. by intros s. Qed.

Lemma silent_raise e : silent (raise e : run A).
Proof. by intros s. Qed.
End silent.

Lemma silent_bind {A B} (m : run A) (k : A → run B) :
  silent m → (∀ a, silent (k a)) → silent (m ≫= k).
Proof.
  intros Hm Hk s. unfold mbind, run_bind. specialize (Hm s).
  destruct (m s) as [[a|e] s1]; [|done].
  simpl in Hm. by rewrite (Hk a s1).
Qed.

Lemma silent_deref r : silent (deref r).
Proof. intros s. unfold deref. by destruct (heap s !! r). Qed.

Lemma silent_savefig render name c : silent (savefig render name c).
Proof. intros s. unfold savefig. by destruct (render name c). Qed.

Lemma silent_grouping_key t name : silent (grouping_key t name).
Proof. intros s. unfold grouping_key. by destruct (getitem t name). Qed.

Lemma silent_column_value_counts t name : silent (column_value_counts t name).
Proof.
  apply silent_bind; [apply silent_grouping_key|intros; apply silent_ret].
Qed.

(** The visualizer prints nothing. *)
Lemma silent_create_visualizations render df :
  silent (create_visualizations render df).
Proof.
  unfold create_visualizations, visualization_1, visualization_2,
    visualization_3, visualization_4, visualization_5.
  repeat first
    [ apply silent_deref
    | apply silent_column_value_counts
    | apply silent_bind; [|intros ?]
    | apply silent_grouping_key
    | apply silent_savefig ].
Qed.






(** X17. Nothing catches an exception raised after the loader: one
    raised by the summary ends the run with no file written; one raised
    by the visualizer ends it with the exported workbook unwritten and
    the two closing lines unprinted. *)
Theorem exception_after_the_loader_ends_the_run render export s r s1 :
  load_and_clean_data file_path (after_banner s) = (Ok (Some r), s1) →
  (∀ e s2, generate_summary_stats r s1 = (Raise e, s2) →
     main render export s = (Raise e, s2) ∧ files s2 = files s) ∧
  (∀ s2 e s3,
     generate_summary_stats r s1 = (Ok (), s2) →
     create_visualizations render r
       (print [Text (nl ++ "Creating visualizations...")] s2).2
       = (Raise e, s3) →
     main render export s = (Raise e, s3) ∧
     files s3 !! export_file = files s !! export_file ∧
     console s3
       = (console s2 ++ [[Text (nl ++ "Creating visualizations...")]])%list).
Proof.
  intros Hload.
  assert (files s1 = files s) as Hfiles.
  { pose proof (loader_files file_path (after_banner s)) as Hl.
    by rewrite Hload in Hl. }
  split.
  - intros e s2 Hsum.
    rewrite main_after_banner, Hload. unfold after_load, mbind, run_bind.
    rewrite Hsum. split; [done|].
    rewrite <- Hfiles. apply map_eq. intros name.
    pose proof (tame_other_files ∅ (generate_summary_stats r) s1 name
                  (tame_generate_summary_stats r)) as Hother.
    rewrite Hsum in Hother. apply Hother. set_solver.
  - intros s2 e s3 Hsum Hviz.
    rewrite main_after_banner, Hload. unfold after_load, mbind, run_bind.
    rewrite Hsum. unfold print in *. cbn [snd] in Hviz. rewrite Hviz.
    split; [done|]. split.
    + pose proof (tame_other_files image_files
                    (create_visualizations render r)
                    (mkState (heap s2) (files s2)
                       (console s2 ++ [[Text (nl ++ "Creating visualizations...")]]))
                    export_file (tame_create_visualizations render r)
                    not_an_image) as H3.
      rewrite Hviz in H3. simpl in H3. rewrite H3.
      pose proof (tame_other_files ∅ (generate_summary_stats r) s1
                    export_file (tame_generate_summary_stats r)) as H2.
      rewrite Hsum in H2. simpl in H2. rewrite H2, Hfiles; [done|set_solver].
    + pose proof (silent_create_visualizations render r
                    (mkState (heap s2) (files s2)
                       (console s2 ++ [[Text (nl ++ "Creating visualizations...")]])))
        as Hq.
      by rewrite Hviz in Hq.
Qed.

Lemma exception_after_the_loader_ends_the_run_witness :
  (∀ e s2,
     generate_summary_stats 0
       (load_and_clean_data file_path
          (after_banner (boot (Samples.on_disk Samples.two_type_columns)))).2
       = (Raise e, s2) →
     main Samples.no_render Samples.no_refusal
       (boot (Samples.on_disk Samples.two_type_columns))
       = (Raise e, s2) ∧
     files s2 = files (boot (Samples.on_disk Samples.two_type_columns))) ∧
  (∀ s2 e s3,
     generate_summary_stats 0
       (load_and_clean_data file_path
          (after_banner (boot (Samples.on_disk Samples.two_type_columns)))).2
       = (Ok (), s2) →
     create_visualizations Samples.no_render 0
       (print [Text (nl ++ "Creating visualizations...")] s2).2
       = (Raise e, s3) →
     main Samples.no_render Samples.no_refusal
       (boot (Samples.on_disk Samples.two_type_columns))
       = (Raise e, s3) ∧
     files s3 !! export_file
       = files (boot (Samples.on_disk Samples.two_type_columns)) !! export_file ∧
     console s3
       = (console s2 ++ [[Text (nl ++ "Creating visualizations...")]])%list).
Proof.
  apply (exception_after_the_loader_ends_the_run Samples.no_render
           Samples.no_refusal (boot (Samples.on_disk Samples.two_type_columns)) 0
           (load_and_clean_data file_path
              (after_banner (boot (Samples.on_disk Samples.two_type_columns)))).2).
  vm_compute. reflexivity.
Defined.

(** The sheet with two office-type columns, worked out: the summary
    raises, the run ends on its exception and no file is written. *)
Example run_on_two_type_columns :
  (main Samples.no_render Samples.no_refusal
     (boot (Samples.on_disk Samples.two_type_columns))).1
    = Raise (Raised AttributeError
               "'DataFrame' object has no attribute 'unique'") ∧
  files (main Samples.no_render Samples.no_refusal
           (boot (Samples.on_disk Samples.two_type_columns))).2
    = Samples.on_disk Samples.two_type_columns.
Proof. split; vm_compute; reflexivity. Qed.

(** X18. Whatever happens, the run changes no file other than its six
    outputs; in particular it never modifies the workbook it reads. *)
Theorem run_changes_only_its_outputs render export s name :
  name ∉ image_files ∪ {[ export_file ]} →
  files (main render export s).2 !! name = files s !! name.
Proof.
  intros Hname. destruct s as [h fs c].
  destruct (main_reads_only_the_input render export h c (fs !! file_path))
    as (o & h' & W & c' & Hdom & Hrun).
  rewrite (Hrun fs eq_refl). simpl.
  apply lookup_union_r, not_elem_of_dom. set_solver.
Qed.

Lemma run_changes_only_its_outputs_witness :
  files (main Samples.no_render Samples.no_refusal
           Samples.offices_booted).2 !! file_path
  = files Samples.offices_booted !! file_path.
Proof.
  apply (run_changes_only_its_outputs Samples.no_render Samples.no_refusal
           Samples.offices_booted file_path).
  compute_done.
Defined.
